(** * Claims Management System: frontend validation, utilities and the
    claim lifecycle, embedded in Rocq.

    Sources: [src/unnamed/part_000] (Zod schemas and [@/utils]),
    [src/frontend/src/types/index.ts], [src/frontend/src/pages/Dashboard.tsx]
    (the axios client and [retryRequest]), [src/unnamed/part_001]
    (the claims service) and [src/frontend/src/pages/EditClaim.tsx].

    Modelling conventions.
    - JavaScript strings are [String.string] (ASCII characters).
    - JavaScript numbers used as amounts or confidences are exact rationals
      [Q]; integral numbers (timestamps, counts, delays) are [Z] or [nat].
    - [Date] parsing is left abstract: a section variable
      [parse_date : string -> option Z] gives the epoch milliseconds of a
      parseable string and [None] for an Invalid Date; [now] is the clock
      reading at validation time.
    - A Zod schema is a boolean function: [true] iff [safeParse] succeeds. *)

From Stdlib Require Import List Bool ZArith QArith Lia String Ascii.
From Stdlib Require Import Qround Btauto.
Import ListNotations.

Open Scope bool_scope.

(** ** Enums of [types/index.ts] *)

Inductive ClaimStatus :=
| RECEIVED | OCR_PROCESSING | PII_MASKED | DQ_VALIDATED | HUMAN_REVIEW
| CONSENT_VERIFIED | CLAIM_VALIDATED | PAYER_SUBMITTED | SETTLED | REJECTED.

Definition ClaimStatus_value (s : ClaimStatus) : string :=
  match s with
  | RECEIVED => "RECEIVED"
  | OCR_PROCESSING => "OCR_PROCESSING"
  | PII_MASKED => "PII_MASKED"
  | DQ_VALIDATED => "DQ_VALIDATED"
  | HUMAN_REVIEW => "HUMAN_REVIEW"
  | CONSENT_VERIFIED => "CONSENT_VERIFIED"
  | CLAIM_VALIDATED => "CLAIM_VALIDATED"
  | PAYER_SUBMITTED => "PAYER_SUBMITTED"
  | SETTLED => "SETTLED"
  | REJECTED => "REJECTED"
  end%string.

Definition ClaimStatus_all : list ClaimStatus :=
  [RECEIVED; OCR_PROCESSING; PII_MASKED; DQ_VALIDATED; HUMAN_REVIEW;
   CONSENT_VERIFIED; CLAIM_VALIDATED; PAYER_SUBMITTED; SETTLED; REJECTED].

Inductive ClaimType := MEDICAL | DENTAL | VISION | PHARMACY.

Definition ClaimType_value (t : ClaimType) : string :=
  match t with
  | MEDICAL => "MEDICAL"
  | DENTAL => "DENTAL"
  | VISION => "VISION"
  | PHARMACY => "PHARMACY"
  end%string.

Definition ClaimType_all : list ClaimType := [MEDICAL; DENTAL; VISION; PHARMACY].

(** [z.nativeEnum(ClaimType)] on a string: the string is one of the values
    of the (string) enum object. *)
Definition nativeEnum_ClaimType (s : string) : bool :=
  existsb (fun t => String.eqb (ClaimType_value t) s) ClaimType_all.

(** ** Character classes and the regular expressions of the schemas *)

Definition in_range (lo hi : ascii) (c : ascii) : bool :=
  (nat_of_ascii lo <=? nat_of_ascii c)%nat && (nat_of_ascii c <=? nat_of_ascii hi)%nat.

Definition is_upper (c : ascii) : bool := in_range "A" "Z" c.
Definition is_lower (c : ascii) : bool := in_range "a" "z" c.
Definition is_digit (c : ascii) : bool := in_range "0" "9" c.

(** [[A-Z0-9]] *)
Definition is_upper_alnum (c : ascii) : bool := is_upper c || is_digit c.

(** [\s] on the code points below 256: space, tab, line feed, vertical
    tab, form feed, carriage return and the no-break space U+00A0. *)
Definition is_space (c : ascii) : bool :=
  existsb (fun n => Nat.eqb (nat_of_ascii c) n) [32; 9; 10; 11; 12; 13; 160]%nat.

Fixpoint all_chars (p : ascii -> bool) (s : string) : bool :=
  match s with
  | EmptyString => true
  | String c s' => p c && all_chars p s'
  end.

(** [/^CLM[A-Z0-9]{6,}$/] *)
Definition claim_number_regex (s : string) : bool :=
  String.prefix "CLM" s &&
  let rest := substring 3 (length s - 3) s in
  (6 <=? length rest)%nat && all_chars is_upper_alnum rest.

(** [[0-9a-z]], the digits of a base-36 string. *)
Definition lower_or_digit (c : ascii) : bool := is_digit c || is_lower c.

(** [/^[a-zA-Z\s\-'\.]+$/] *)
Definition patient_name_char (c : ascii) : bool :=
  is_upper c || is_lower c || is_space c
  || Ascii.eqb c "-" || Ascii.eqb c "'" || Ascii.eqb c ".".

Definition patient_name_regex (s : string) : bool :=
  (1 <=? length s)%nat && all_chars patient_name_char s.

(** [isValidClaimNumber] (utils): [claimRegex.test(claimNumber)]. *)
Definition isValidClaimNumber (claimNumber : string) : bool :=
  claim_number_regex claimNumber.

(** ** Numbers *)

(** [x.toFixed(2)]: the integer [n] for which [n / 100 - x] is closest to
    zero, the larger one on a tie; kept as the number of hundredths. *)
Definition toFixed2_hundredths (x : Q) : Z := Qfloor (x * 100 + (1 # 2))%Q.

(** [Number(amount.toFixed(2)) === amount] *)
Definition two_decimals_refine (amount : Q) : bool :=
  Qeq_bool (toFixed2_hundredths amount # 100)%Q amount.

Definition Qlt_bool (x y : Q) : bool := negb (Qle_bool y x).

(** ** [claimValidationSchema] *)

Record ClaimInput := {
  claim_number : string;
  policy_number : string;
  patient_name : string;
  date_of_service : string;
  claim_amount : Q;
  claim_type : string;
  provider_name : option string;
  diagnosis_codes : option (list string);
  procedure_codes : option (list string)
}.

Definition claim_number_check (s : string) : bool :=
  (1 <=? length s)%nat && claim_number_regex s.

Definition policy_number_check (s : string) : bool :=
  (1 <=? length s)%nat && (5 <=? length s)%nat && (length s <=? 50)%nat.

Definition patient_name_check (s : string) : bool :=
  (1 <=? length s)%nat && (2 <=? length s)%nat && (length s <=? 100)%nat
  && patient_name_regex s.

(** [z.number().positive().min(0.01).max(1000000).refine(...)] *)
Definition claim_amount_check (amount : Q) : bool :=
  Qlt_bool 0 amount && Qle_bool (1 # 100)%Q amount && Qle_bool amount 1000000%Q
  && two_decimals_refine amount.

Definition provider_name_check (o : option string) : bool :=
  match o with
  | None => true
  | Some s => (length s <=? 200)%nat
  end.

(** [z.array(z.string().min(1)).max(10).optional()] *)
Definition codes_check (o : option (list string)) : bool :=
  match o with
  | None => true
  | Some l => forallb (fun c => (1 <=? length c)%nat) l && (List.length l <=? 10)%nat
  end.

Section Validation.

Variable parse_date : string -> option Z.
Variable now : Z.

(** [z.string().min(1).refine(valid date).refine(parsedDate <= now)];
    an Invalid Date compares as NaN, so [NaN <= now] is false. *)
Definition date_of_service_check (s : string) : bool :=
  (1 <=? length s)%nat
  && match parse_date s with Some _ => true | None => false end
  && match parse_date s with Some t => (t <=? now)%Z | None => false end.

Definition claimValidationSchema (i : ClaimInput) : bool :=
  claim_number_check (claim_number i)
  && policy_number_check (policy_number i)
  && patient_name_check (patient_name i)
  && date_of_service_check (date_of_service i)
  && claim_amount_check (claim_amount i)
  && nativeEnum_ClaimType (claim_type i)
  && provider_name_check (provider_name i)
  && codes_check (diagnosis_codes i)
  && codes_check (procedure_codes i).

End Validation.

(** ** Number to string *)

Definition digit_char (d : Z) : ascii := ascii_of_nat (48 + Z.to_nat d).

(** Decimal digits of a positive integer, most significant first; [fuel]
    bounds the number of digits. *)
Fixpoint pos_digits (fuel : nat) (n : Z) : string :=
  match fuel with
  | O => EmptyString
  | S f =>
      if (n <? 10)%Z then String (digit_char n) EmptyString
      else (pos_digits f (n / 10) ++ String (digit_char (n mod 10)) EmptyString)%string
  end.

Definition digits_fuel (n : Z) : nat := S (Z.to_nat (Z.log2 n)).

(** [Number.prototype.toString()] on an integral number. *)
Definition Number_toString (x : Z) : string :=
  if (x =? 0)%Z then "0"%string
  else if (x <? 0)%Z then String "-" (pos_digits (digits_fuel (- x)) (- x))
  else pos_digits (digits_fuel x) x.

(** ** [updateClaimSchema] and the update path *)

Definition is_hex (c : ascii) : bool :=
  is_digit c || in_range "a" "f" c || in_range "A" "F" c.

Fixpoint uuid_chars (pos : nat) (s : string) : bool :=
  match s with
  | EmptyString => true
  | String c s' =>
      (if existsb (Nat.eqb pos) [8; 13; 18; 23]%nat then Ascii.eqb c "-" else is_hex c)
      && uuid_chars (S pos) s'
  end.

(** [z.string().uuid()]:
    [/^[0-9a-fA-F]{8}\b-[0-9a-fA-F]{4}\b-[0-9a-fA-F]{4}\b-[0-9a-fA-F]{4}\b-[0-9a-fA-F]{12}$/i]. *)
Definition uuid_check (s : string) : bool :=
  (length s =? 36)%nat && uuid_chars 0 s.

Definition opt_check {A : Type} (f : A -> bool) (o : option A) : bool :=
  match o with None => true | Some a => f a end.

(** Input of [claimValidationSchema.partial().extend({ id })]. *)
Record UpdatePayload := {
  upd_id : string;
  upd_claim_number : option string;
  upd_policy_number : option string;
  upd_patient_name : option string;
  upd_date_of_service : option string;
  upd_claim_amount : option Q;
  upd_claim_type : option string;
  upd_provider_name : option string;
  upd_diagnosis_codes : option (list string);
  upd_procedure_codes : option (list string)
}.

(** [ClaimUpdate] of [types/index.ts]: the body of the PATCH request. *)
Record ClaimUpdate := {
  cu_claim_number : option string;
  cu_policy_number : option string;
  cu_patient_name : option string;
  cu_date_of_service : option string;
  cu_claim_amount : option Q;
  cu_claim_type : option string;
  cu_status : option ClaimStatus;
  cu_provider_name : option string;
  cu_diagnosis_codes : option (list string);
  cu_procedure_codes : option (list string)
}.

(** The stored [Claim] (the fields the update path touches). *)
Record Claim := {
  c_id : string;
  c_claim_number : string;
  c_policy_number : string;
  c_patient_name : string;
  c_date_of_service : string;
  c_claim_amount : Q;
  c_claim_type : string;
  c_status : ClaimStatus;
  c_provider_name : option string;
  c_diagnosis_codes : option (list string);
  c_procedure_codes : option (list string)
}.

Section UpdateValidation.

Variable parse_date : string -> option Z.
Variable now : Z.

Definition updateClaimSchema (p : UpdatePayload) : bool :=
  opt_check claim_number_check (upd_claim_number p)
  && opt_check policy_number_check (upd_policy_number p)
  && opt_check patient_name_check (upd_patient_name p)
  && opt_check (date_of_service_check parse_date now) (upd_date_of_service p)
  && opt_check claim_amount_check (upd_claim_amount p)
  && opt_check nativeEnum_ClaimType (upd_claim_type p)
  && provider_name_check (upd_provider_name p)
  && codes_check (upd_diagnosis_codes p)
  && codes_check (upd_procedure_codes p)
  && uuid_check (upd_id p).

End UpdateValidation.

(** The parsed payload as the [ClaimUpdate] sent by [updateClaim]; the
    schema has no [status] key. *)
Definition payload_to_update (p : UpdatePayload) : ClaimUpdate := {|
  cu_claim_number := upd_claim_number p;
  cu_policy_number := upd_policy_number p;
  cu_patient_name := upd_patient_name p;
  cu_date_of_service := upd_date_of_service p;
  cu_claim_amount := upd_claim_amount p;
  cu_claim_type := upd_claim_type p;
  cu_status := None;
  cu_provider_name := upd_provider_name p;
  cu_diagnosis_codes := upd_diagnosis_codes p;
  cu_procedure_codes := upd_procedure_codes p
|}.




(** ** [claimFiltersSchema] *)

(** A JavaScript value other than [undefined] ([undefined] is an absent,
    [None], field). *)
Inductive jsval :=
| JNull
| JBool (b : bool)
| JNum (q : Q)
| JStr (s : string)
| JObj.

(** [z.nativeEnum(ClaimType)]: only strings and numbers are candidates, and
    the values of the string enum are its four strings. *)
Definition nativeEnum_ClaimType_js (v : jsval) : bool :=
  match v with
  | JStr s => nativeEnum_ClaimType s
  | _ => false
  end.

Record FiltersInput := {
  f_search : option string;
  f_status : option jsval;
  f_claim_type : option jsval;
  f_date_from : option string;
  f_date_to : option string;
  f_skip : option Q;
  f_limit : option Q
}.

Definition with_status (i : FiltersInput) (st : option jsval) : FiltersInput := {|
  f_search := f_search i; f_status := st; f_claim_type := f_claim_type i;
  f_date_from := f_date_from i; f_date_to := f_date_to i;
  f_skip := f_skip i; f_limit := f_limit i
|}.

Definition truthy_string (o : option string) : bool :=
  match o with Some s => negb (String.eqb s "") | None => false end.

Section Filters.

Variable parse_date : string -> option Z.

(** [z.string().refine((date) => !date || !isNaN(Date.parse(date))).optional()] *)
Definition filter_date_check (s : string) : bool :=
  String.eqb s "" || match parse_date s with Some _ => true | None => false end.

(** The object-level [refine]: [new Date(from) <= new Date(to)] when both are
    truthy; NaN compares false. *)
Definition filters_refine (i : FiltersInput) : bool :=
  if truthy_string (f_date_from i) && truthy_string (f_date_to i) then
    match f_date_from i, f_date_to i with
    | Some a, Some b =>
        match parse_date a, parse_date b with
        | Some ta, Some tb => (ta <=? tb)%Z
        | _, _ => false
        end
    | _, _ => true
    end
  else true.

Definition claimFiltersSchema (i : FiltersInput) : bool :=
  opt_check (fun s => (length s <=? 100)%nat) (f_search i)
  && opt_check nativeEnum_ClaimType_js (f_status i)
  && opt_check nativeEnum_ClaimType_js (f_claim_type i)
  && opt_check filter_date_check (f_date_from i)
  && opt_check filter_date_check (f_date_to i)
  && Qle_bool 0 (match f_skip i with Some q => q | None => 0 end)
  && (let l := match f_limit i with Some q => q | None => 20 end in
      Qle_bool 1 l && Qle_bool l 100)
  && filters_refine i.

End Filters.

Definition empty_filters : FiltersInput := {|
  f_search := None; f_status := None; f_claim_type := None;
  f_date_from := None; f_date_to := None; f_skip := None; f_limit := None
|}.

(** ** [generateClaimNumber] *)

(** [str.slice(-6)] *)
Definition slice_last6 (s : string) : string :=
  if (length s <=? 6)%nat then s else substring (length s - 6) 6 s.

Definition base36_char (d : nat) : ascii :=
  if (d <? 10)%nat then ascii_of_nat (48 + d) else ascii_of_nat (87 + d).

(** [Math.random().toString(36)] for a random number whose base-36
    expansion has the fractional digits [ds]: ["0"] for zero, otherwise
    ["0."] followed by the digits. *)
Definition random_toString36 (ds : list nat) : string :=
  match ds with
  | [] => "0"%string
  | _ => ("0." ++ fold_right (fun d s => String (base36_char d) s) EmptyString ds)%string
  end.

(** The Latin-1 small letters U+00E0 to U+00FE but U+00F7, the division
    sign: their capitals are 32 code points below. *)
Definition is_latin1_lower (c : ascii) : bool :=
  (224 <=? nat_of_ascii c)%nat && (nat_of_ascii c <=? 254)%nat
  && negb (nat_of_ascii c =? 247)%nat.

(** [String.prototype.toUpperCase] on a code point below 256 other than
    U+00DF: [a-z] and the Latin-1 small letters move 32 code points down.
    (U+00B5 and U+00FF, whose capitals lie above U+00FF, are outside this
    8-bit model and are left as they are.) *)
Definition ascii_toUpper (c : ascii) : ascii :=
  if is_lower c || is_latin1_lower c then ascii_of_nat (nat_of_ascii c - 32) else c.

(** [str.toUpperCase()]: the sharp s U+00DF becomes the two letters "SS". *)
Fixpoint toUpperCase (s : string) : string :=
  match s with
  | EmptyString => EmptyString
  | String c s' =>
      if (nat_of_ascii c =? 223)%nat then ("SS" ++ toUpperCase s')%string
      else String (ascii_toUpper c) (toUpperCase s')
  end.

(** [generateClaimNumber()] with [Date.now() = now] and
    [Math.random().toString(36) = random_toString36 ds]. *)
Definition generateClaimNumber (now : Z) (ds : list nat) : string :=
  let timestamp := slice_last6 (Number_toString now) in
  let random := toUpperCase (substring 2 4 (random_toString36 ds)) in
  ("CLM" ++ timestamp ++ random)%string.

(** ** Confidence display *)

(** [Math.round(x)]: the nearest integer, halves rounded up. *)
Definition Math_round (x : Q) : Z := Qfloor (x + (1 # 2))%Q.

Definition getConfidenceColor (confidence : Q) : string :=
  if Qle_bool (8 # 10) confidence then "text-green-600"%string
  else if Qle_bool (6 # 10) confidence then "text-yellow-600"%string
  else "text-red-600"%string.

(** [formatConfidence]: [`${Math.round(confidence * 100)}%`]. Exact
    arithmetic agrees with the double computation while [|100 * confidence|]
    stays below about 2^50; beyond that doubles lose the units digit, and
    from 1e21 [String] switches to exponent form. *)
Definition formatConfidence (confidence : Q) : string :=
  (Number_toString (Math_round (confidence * 100)) ++ "%")%string.

(** [OCRResult] of [types/index.ts]: the confidence fields are plain numbers. *)
Record OCRResult := {
  ocr_extracted_text : string;
  ocr_confidence_scores : list (string * Q);
  ocr_overall_confidence : Q;
  ocr_requires_human_review : bool
}.

(** ** [retryRequest] (the axios client module) *)

(** A rejection reason: whether it is an [AxiosError] and the
    [error.response?.status] it carries. *)
Record Err := {
  is_axios : bool;
  response_status : option Z
}.

Inductive Outcome (T : Type) :=
| Resolved (v : T)
| Rejected (e : Err).
Arguments Resolved {T} v.
Arguments Rejected {T} e.

(** Observable steps: a call of [requestFn] at an attempt number, and a
    [setTimeout] wait of some milliseconds. *)
Inductive Event :=
| Call (attempt : nat)
| Wait (ms : Z).

(** How the returned promise settles; [Thrown None] is [throw undefined]. *)
Inductive Result (T : Type) :=
| Returned (v : T)
| Thrown (e : option Err).
Arguments Returned {T} v.
Arguments Thrown {T} e.

(** [error instanceof AxiosError && error.response?.status
     && error.response.status < 500]; a zero status is falsy. *)
Definition no_retry (e : Err) : bool :=
  is_axios e &&
  match response_status e with
  | Some s => negb (s =? 0)%Z && (s <? 500)%Z
  | None => false
  end.

Section Retry.

Context {T : Type}.
(** [requestFn]: the outcome of its call at each attempt number. *)
Variable requestFn : nat -> Outcome T.
Variable maxRetries : nat.
Variable delay : Z.

Definition backoff (attempt : nat) : Z := (delay * 2 ^ (Z.of_nat attempt - 1))%Z.

(** The [for (let attempt = 1; attempt <= maxRetries; attempt++)] loop;
    [fuel] is the number of iterations left. *)
Fixpoint retry_loop (fuel attempt : nat) (lastError : option Err)
  : list Event * Result T :=
  match fuel with
  | O => ([], Thrown lastError)
  | S fuel' =>
      match requestFn attempt with
      | Resolved v => ([Call attempt], Returned v)
      | Rejected e =>
          if no_retry e then ([Call attempt], Thrown (Some e))
          else
            let w := if (attempt <? maxRetries)%nat then [Wait (backoff attempt)] else [] in
            let '(tr, r) := retry_loop fuel' (S attempt) (Some e) in
            (Call attempt :: w ++ tr, r)
      end
  end.

Definition retryRequest : list Event * Result T := retry_loop maxRetries 1 None.

End Retry.

Definition count_calls (tr : list Event) : nat :=
  List.length (filter (fun ev => match ev with Call _ => true | Wait _ => false end) tr).

Definition err_of {T : Type} (o : Outcome T) : option Err :=
  match o with Rejected e => Some e | Resolved _ => None end.

(** ** Lifecycle engine *)

(** Modelled from the spec: the Lifecycle Engine (section 4.1) is backend
    code that is not part of the sources. Events of section 4.1; routing out
    of [DQ_VALIDATED] takes the overall confidence and whether a
    mandatory-review rule fires. *)
Inductive LifecycleEvent :=
| DocumentAttached
| ExtractionCompleted (overall_confidence : Q)
| ExtractionFailed
| DQChecksPassed
| RouteAfterDQ (overall_confidence : Q) (mandatory_review : bool)
| ReviewerApproved
| ClaimValidationPassed
| PayerSubmitted
| PayerSettled
| Rejection.

Inductive AdvanceResult :=
| Advanced (s : ClaimStatus)
| RetryableFailure (s : ClaimStatus)
| InvalidTransition (s : ClaimStatus) (e : LifecycleEvent).

Definition default_review_threshold : Q := 8 # 10.

Definition is_terminal (s : ClaimStatus) : bool :=
  match s with SETTLED | REJECTED => true | _ => false end.

(** Modelled from the spec: [DQ_VALIDATED -> HUMAN_REVIEW] iff
    [overall_confidence < review_threshold] or a mandatory-review rule
    fires; otherwise [DQ_VALIDATED -> CONSENT_VERIFIED]. *)
Definition route_after_dq (review_threshold overall_confidence : Q)
  (mandatory_review : bool) : ClaimStatus :=
  if Qlt_bool overall_confidence review_threshold || mandatory_review
  then HUMAN_REVIEW else CONSENT_VERIFIED.

(** Modelled from the spec: the transition function of section 4.1;
    [REJECTED] and [SETTLED] accept no event, any other state accepts an
    explicit rejection, and an event not defined from the current state is
    an [InvalidTransition]. *)
Definition advance (review_threshold : Q) (s : ClaimStatus) (e : LifecycleEvent)
  : AdvanceResult :=
  if is_terminal s then InvalidTransition s e else
  match s, e with
  | _, Rejection => Advanced REJECTED
  | RECEIVED, DocumentAttached => Advanced OCR_PROCESSING
  | OCR_PROCESSING, ExtractionCompleted _ => Advanced PII_MASKED
  | OCR_PROCESSING, ExtractionFailed => RetryableFailure OCR_PROCESSING
  | PII_MASKED, DQChecksPassed => Advanced DQ_VALIDATED
  | DQ_VALIDATED, RouteAfterDQ c m => Advanced (route_after_dq review_threshold c m)
  | HUMAN_REVIEW, ReviewerApproved => Advanced CONSENT_VERIFIED
  | CONSENT_VERIFIED, ClaimValidationPassed => Advanced CLAIM_VALIDATED
  | CLAIM_VALIDATED, PayerSubmitted => Advanced PAYER_SUBMITTED
  | PAYER_SUBMITTED, PayerSettled => Advanced SETTLED
  | _, _ => InvalidTransition s e
  end.

(** ** Derived notions used in the statements *)

(** Every field of [claimValidationSchema] other than [claim_amount] passes. *)
Definition other_fields_valid (parse_date : string -> option Z) (now : Z)
  (i : ClaimInput) : bool :=
  claim_number_check (claim_number i)
  && policy_number_check (policy_number i)
  && patient_name_check (patient_name i)
  && date_of_service_check parse_date now (date_of_service i)
  && nativeEnum_ClaimType (claim_type i)
  && provider_name_check (provider_name i)
  && codes_check (diagnosis_codes i)
  && codes_check (procedure_codes i).

(** A transient, 5xx-class failure: an [AxiosError] whose response status is
    in [500, 600). *)
Definition transient (e : Err) : Prop :=
  is_axios e = true /\ exists s, response_status e = Some s /\ (500 <= s < 600)%Z.


(** The steps of [maxRetries] failing attempts: each call, followed by the
    backoff wait unless it was the last attempt. *)
Definition attempt_steps (maxRetries : nat) (delay : Z) (a : nat) : list Event :=
  Call a :: (if (a <? maxRetries)%nat then [Wait (backoff delay a)] else []).

Definition expected_trace (maxRetries : nat) (delay : Z) : list Event :=
  flat_map (attempt_steps maxRetries delay) (seq 1 maxRetries).

(** An update payload that only carries an id and a claim number. *)
Definition claim_number_payload (id cn : string) : UpdatePayload := {|
  upd_id := id; upd_claim_number := Some cn;
  upd_policy_number := None; upd_patient_name := None;
  upd_date_of_service := None; upd_claim_amount := None;
  upd_claim_type := None; upd_provider_name := None;
  upd_diagnosis_codes := None; upd_procedure_codes := None
|}.

(** Sample data. *)
Definition sample_claim : Claim := {|
  c_id := "123e4567-e89b-12d3-a456-426614174000";
  c_claim_number := "CLM123456";
  c_policy_number := "POL12345";
  c_patient_name := "Jane Doe";
  c_date_of_service := "2024-01-15T00:00:00";
  c_claim_amount := 25050 # 100;
  c_claim_type := "MEDICAL";
  c_status := RECEIVED;
  c_provider_name := None;
  c_diagnosis_codes := None;
  c_procedure_codes := None
|}.

Definition sample_input (amount : Q) : ClaimInput := {|
  claim_number := "CLM123456";
  policy_number := "POL12345";
  patient_name := "Jane Doe";
  date_of_service := "2024-01-15";
  claim_amount := amount;
  claim_type := "MEDICAL";
  provider_name := None;
  diagnosis_codes := None;
  procedure_codes := None
|}.

(** A date parser that reads every string as the epoch. *)
Definition parse_epoch (_ : string) : option Z := Some 0%Z.

(** A date parser that, like [new Date("")], rejects the empty string and
    reads every other string as the epoch. *)
Definition parse_nonempty (s : string) : option Z :=
  if String.eqb s "" then None else Some 0%Z.

Definition server_error : Err := {| is_axios := true; response_status := Some 503%Z |}.

(** ** String utilities of [@/utils] *)

Section StringUtils.

Local Open Scope string_scope.

(** The string has no occurrence of [c]. *)
Definition no_char (c : ascii) (s : string) : bool := all_chars (fun x => negb (Ascii.eqb x c)) s.

(** [text.slice(0, end)]: a negative [end] counts back from the end. *)
Definition slice_to (text : string) (end_ : Z) : string :=
  let len := Z.of_nat (length text) in
  let e := if (end_ <? 0)%Z then Z.max (len + end_) 0 else Z.min end_ len in
  substring 0 (Z.to_nat e) text.

(** [truncateText(text, maxLength)], for an integral [maxLength]. *)
Definition truncateText (text : string) (maxLength : Z) : string :=
  if (Z.of_nat (length text) <=? maxLength)%Z then text
  else slice_to text maxLength ++ "...".

(** [str.split(sep)] with a one-character separator: the pieces between the
    separators, [[""]] for the empty string. *)
Fixpoint split_char (sep : ascii) (s : string) : list string :=
  match s with
  | EmptyString => [EmptyString]
  | String c s' =>
      if Ascii.eqb c sep then EmptyString :: split_char sep s'
      else match split_char sep s' with
           | [] => [String c EmptyString]
           | p :: ps => String c p :: ps
           end
  end.

(** [str.charAt(0)] *)
Definition charAt0 (s : string) : string :=
  match s with
  | EmptyString => EmptyString
  | String c _ => String c EmptyString
  end.

(** [getInitials(name)]:
    [name.split(' ').map(part => part.charAt(0).toUpperCase()).slice(0, 2).join('')]. *)
Definition getInitials (name : string) : string :=
  String.concat "" (firstn 2 (map (fun part => toUpperCase (charAt0 part))
                                  (split_char " " name))).

(** [String.prototype.toLowerCase] on a code point below 256: [A-Z] and the
    Latin-1 capitals U+00C0 to U+00DE (but U+00D7, the multiplication sign)
    move 32 code points up. *)
Definition is_latin1_upper (c : ascii) : bool :=
  (192 <=? nat_of_ascii c)%nat && (nat_of_ascii c <=? 222)%nat
  && negb (nat_of_ascii c =? 215)%nat.

Definition ascii_toLower (c : ascii) : ascii :=
  if is_upper c || is_latin1_upper c then ascii_of_nat (nat_of_ascii c + 32) else c.

Fixpoint toLowerCase (s : string) : string :=
  match s with
  | EmptyString => EmptyString
  | String c s' => String (ascii_toLower c) (toLowerCase s')
  end.

(** [arr.pop()]: the last element, [undefined] for an empty array. *)
Definition pop {A : Type} (l : list A) : option A :=
  match rev l with
  | [] => None
  | x :: _ => Some x
  end.

(** [getFileExtension(filename)]:
    [filename.split('.').pop()?.toLowerCase() || '']. *)
Definition getFileExtension (filename : string) : string :=
  match pop (split_char "." filename) with
  | Some e => let l := toLowerCase e in if String.eqb l "" then "" else l
  | None => ""
  end.

Definition imageExtensions : list string :=
  ["jpg"; "jpeg"; "png"; "gif"; "bmp"; "webp"; "svg"].

Definition isImageFile (filename : string) : bool :=
  existsb (String.eqb (getFileExtension filename)) imageExtensions.

Definition isPDFFile (filename : string) : bool :=
  String.eqb (getFileExtension filename) "pdf".

(** [generateId()] with [Math.random().toString(36) = random_toString36 ds]:
    [.substr(2, 9)]. *)
Definition generateId (ds : list nat) : string := substring 2 9 (random_toString36 ds).

End StringUtils.

(** ** [isEmpty] *)

(** A JavaScript value as [isEmpty] inspects it; an object is given by its
    own enumerable keys ([Object.keys]). *)
Inductive anyval :=
| AUndefined
| ANull
| ABool (b : bool)
| ANum (q : Q)
| AStr (s : string)
| AArr (items : list anyval)
| AObj (keys : list string)
| AFun.

(** The WhiteSpace and LineTerminator code points below 256 removed by
    [String.prototype.trim]: the same as those of [\s]. *)
Definition js_ws (c : ascii) : bool := is_space c.

Fixpoint trim_start (s : string) : string :=
  match s with
  | EmptyString => EmptyString
  | String c s' => if js_ws c then trim_start s' else s
  end.

Fixpoint trim_end (s : string) : string :=
  match s with
  | EmptyString => EmptyString
  | String c s' =>
      let t := trim_end s' in
      if js_ws c && String.eqb t EmptyString then EmptyString else String c t
  end.

Definition trim (s : string) : string := trim_end (trim_start s).

Definition isEmpty (value : anyval) : bool :=
  match value with
  | AUndefined | ANull => true
  | AStr s => String.eqb (trim s) EmptyString
  | AArr items => (List.length items =? 0)%nat
  | AObj keys => (List.length keys =? 0)%nat
  | _ => false
  end.

(** ** [statusConfig] and the Dashboard's status options *)

Record StatusBadgeConfig := {
  sc_label : string;
  sc_color : string
}.

Section StatusConfig.

Local Open Scope string_scope.

(** The [statusConfig] object literal, keyed by the enum values. *)
Definition statusConfig : list (string * StatusBadgeConfig) := [
  ("RECEIVED", {| sc_label := "Received"; sc_color := "bg-blue-100 text-blue-800 border-blue-200" |});
  ("OCR_PROCESSING", {| sc_label := "Processing"; sc_color := "bg-yellow-100 text-yellow-800 border-yellow-200" |});
  ("PII_MASKED", {| sc_label := "PII Masked"; sc_color := "bg-purple-100 text-purple-800 border-purple-200" |});
  ("DQ_VALIDATED", {| sc_label := "DQ Validated"; sc_color := "bg-cyan-100 text-cyan-800 border-cyan-200" |});
  ("HUMAN_REVIEW", {| sc_label := "Human Review"; sc_color := "bg-orange-100 text-orange-800 border-orange-200" |});
  ("CONSENT_VERIFIED", {| sc_label := "Consent Verified"; sc_color := "bg-indigo-100 text-indigo-800 border-indigo-200" |});
  ("CLAIM_VALIDATED", {| sc_label := "Validated"; sc_color := "bg-green-100 text-green-800 border-green-200" |});
  ("PAYER_SUBMITTED", {| sc_label := "Submitted"; sc_color := "bg-teal-100 text-teal-800 border-teal-200" |});
  ("SETTLED", {| sc_label := "Settled"; sc_color := "bg-emerald-100 text-emerald-800 border-emerald-200" |});
  ("REJECTED", {| sc_label := "Rejected"; sc_color := "bg-red-100 text-red-800 border-red-200" |})
].

End StatusConfig.

Fixpoint assoc_lookup {A : Type} (k : string) (l : list (string * A)) : option A :=
  match l with
  | [] => None
  | (k', v) :: l' => if String.eqb k k' then Some v else assoc_lookup k l'
  end.

(** [statusConfig[status] || statusConfig[ClaimStatus.RECEIVED]] *)
Definition getStatusConfig (status : ClaimStatus) : option StatusBadgeConfig :=
  match assoc_lookup (ClaimStatus_value status) statusConfig with
  | Some c => Some c
  | None => assoc_lookup "RECEIVED"%string statusConfig
  end.

(** The Dashboard's [statusOptions] as (value, label) pairs:
    [{ value: '', label: 'All Statuses' }] and one option per
    [Object.values(ClaimStatus)]. *)
Definition statusOptions : list (string * string) :=
  (""%string, "All Statuses"%string)
  :: map (fun status => (ClaimStatus_value status,
                         match getStatusConfig status with
                         | Some c => sc_label c
                         | None => ""%string
                         end)) ClaimStatus_all.

(** ** [getErrorMessage] and the response interceptor *)

(** [error.response] of an [AxiosError<ApiError>]: the status and
    [data?.detail]. *)
Record ErrorResponse := {
  er_status : Z;
  er_detail : option string
}.

Section ErrorMessages.

Local Open Scope string_scope.

(** The [switch (status)] of [getErrorMessage]. *)
Definition status_message (status : Z) : string :=
  if (status =? 400)%Z then "Invalid request. Please check your input and try again."
  else if (status =? 401)%Z then "Authentication required. Please log in."
  else if (status =? 403)%Z then "Access denied. You don't have permission to perform this action."
  else if (status =? 404)%Z then "The requested resource was not found."
  else if (status =? 422)%Z then "Validation error. Please check your input."
  else if (status =? 500)%Z then "Server error. Please try again later."
  else if (status =? 502)%Z || (status =? 503)%Z || (status =? 504)%Z
  then "Service temporarily unavailable. Please try again later."
  else "An unexpected error occurred. Please try again.".

(** [getErrorMessage(error)], given [error.response]; an empty [detail] is
    falsy. *)
Definition getErrorMessage (response : option ErrorResponse) : string :=
  match response with
  | None => "Network error. Please check your connection and try again."
  | Some r =>
      match er_detail r with
      | Some d => if String.eqb d "" then status_message (er_status r) else d
      | None => status_message (er_status r)
      end
  end.

End ErrorMessages.

(** What the error handler of the response interceptor does besides
    rejecting with the same error (logging apart). *)
Inductive UiEffect :=
| ToastError (message : string)
| RemoveAuthToken
| Redirect (href : string).

Definition response_error_interceptor (response : option ErrorResponse) : list UiEffect :=
  let errorMessage := getErrorMessage response in
  (match response with
   | Some r => if (er_status r =? 404)%Z then [] else [ToastError errorMessage]
   | None => [ToastError errorMessage]
   end)
  ++ (match response with
      | Some r => if (er_status r =? 401)%Z
                  then [RemoveAuthToken; Redirect "/login"%string] else []
      | None => []
      end).

(** The toasts among the effects, in order. *)
Definition toasts (effects : list UiEffect) : list UiEffect :=
  filter (fun e => match e with ToastError _ => true | _ => false end) effects.

(** ** [buildQueryParams] and [URLSearchParams] *)

(** A value of the [params] record: [undefined], [null], a string, an
    integral number, a boolean or an array. *)
Inductive param :=
| PUndefined
| PNull
| PStr (s : string)
| PNum (z : Z)
| PBool (b : bool)
| PArr (items : list param).

Section QueryParams.

Local Open Scope string_scope.

(** [String(value)]; an array is joined with commas, its [null] and
    [undefined] items giving empty strings. *)
Fixpoint js_String (v : param) : string :=
  match v with
  | PUndefined => "undefined"
  | PNull => "null"
  | PStr s => s
  | PNum z => Number_toString z
  | PBool b => if b then "true" else "false"
  | PArr items =>
      String.concat ","
        (map (fun item => match item with
                          | PUndefined | PNull => EmptyString
                          | _ => js_String item
                          end) items)
  end.

(** The [searchParams.append] calls for one entry of [Object.entries(params)]. *)
Definition append_entry (entry : string * param) : list (string * string) :=
  let '(key, value) := entry in
  match value with
  | PUndefined | PNull => []
  | PStr s => if String.eqb s "" then [] else [(key, s)]
  | PArr items => map (fun item => (key, js_String item)) items
  | _ => [(key, js_String value)]
  end.

(** The list of name-value pairs of [searchParams] after the loop. *)
Definition search_params (params : list (string * param)) : list (string * string) :=
  flat_map append_entry params.

Definition hex_upper (n : nat) : ascii :=
  if (n <? 10)%nat then ascii_of_nat (48 + n) else ascii_of_nat (55 + n).

Definition percent_byte (n : nat) : string :=
  String "%" (String (hex_upper (n / 16)) (String (hex_upper (n mod 16)) EmptyString)).

(** Bytes left as they are by the application/x-www-form-urlencoded
    serializer: ASCII alphanumerics and [*-._]. *)
Definition form_unreserved (c : ascii) : bool :=
  is_upper c || is_lower c || is_digit c
  || Ascii.eqb c "*" || Ascii.eqb c "-" || Ascii.eqb c "." || Ascii.eqb c "_".

(** One character through the serializer: UTF-8 encoded (a code point of
    [128, 256) takes two bytes), the space as [+], every other byte
    outside [form_unreserved] percent-encoded with upper-case digits. *)
Definition form_encode_char (c : ascii) : string :=
  let n := nat_of_ascii c in
  if (n <? 128)%nat then
    if Ascii.eqb c " " then "+"
    else if form_unreserved c then String c EmptyString
    else percent_byte n
  else percent_byte (192 + n / 64) ++ percent_byte (128 + n mod 64).

Fixpoint form_encode (s : string) : string :=
  match s with
  | EmptyString => EmptyString
  | String c s' => form_encode_char c ++ form_encode s'
  end.

(** [URLSearchParams.prototype.toString()] *)
Definition serialize_pairs (pairs : list (string * string)) : string :=
  String.concat "&" (map (fun '(name, value) => form_encode name ++ "=" ++ form_encode value) pairs).

(** [buildQueryParams(params)], with [params] given as its
    [Object.entries]. *)
Definition buildQueryParams (params : list (string * param)) : string :=
  serialize_pairs (search_params params).

End QueryParams.

(** The application/x-www-form-urlencoded parser of the URL Standard, as
    the receiving end of the query string ([new URLSearchParams(query)]). *)

Definition hex_val (c : ascii) : option nat :=
  let n := nat_of_ascii c in
  if (48 <=? n)%nat && (n <=? 57)%nat then Some (n - 48)%nat
  else if (65 <=? n)%nat && (n <=? 70)%nat then Some (n - 55)%nat
  else if (97 <=? n)%nat && (n <=? 102)%nat then Some (n - 87)%nat
  else None.

Fixpoint plus_to_space (s : string) : string :=
  match s with
  | EmptyString => EmptyString
  | String c s' => String (if Ascii.eqb c "+" then " "%char else c) (plus_to_space s')
  end.

(** Percent-decoding into bytes. *)
Fixpoint percent_decode (s : string) : list ascii :=
  match s with
  | EmptyString => []
  | String c s' =>
      if Ascii.eqb c "%" then
        match s' with
        | String h1 (String h2 rest) =>
            match hex_val h1, hex_val h2 with
            | Some a, Some b => ascii_of_nat (16 * a + b) :: percent_decode rest
            | _, _ => c :: percent_decode s'
            end
        | _ => c :: percent_decode s'
        end
      else c :: percent_decode s'
  end.

(** UTF-8 decoding of code points below 256; [None] for any other byte
    sequence (a code point outside the model or a replacement character). *)
Fixpoint utf8_decode (bs : list ascii) : option string :=
  match bs with
  | [] => Some EmptyString
  | b :: rest =>
      let n := nat_of_ascii b in
      if (n <? 128)%nat then option_map (String b) (utf8_decode rest)
      else if (n =? 194)%nat || (n =? 195)%nat then
        match rest with
        | b2 :: rest' =>
            let m := nat_of_ascii b2 in
            if (128 <=? m)%nat && (m <? 192)%nat
            then option_map (String (ascii_of_nat ((n - 192) * 64 + (m - 128))))
                            (utf8_decode rest')
            else None
        | [] => None
        end
      else None
  end.

Definition form_decode (s : string) : option string :=
  utf8_decode (percent_decode (plus_to_space s)).

(** The first [=] splits a sequence into name and value. *)
Fixpoint split_at_eq (s : string) : string * option string :=
  match s with
  | EmptyString => (EmptyString, None)
  | String c s' =>
      if Ascii.eqb c "=" then (EmptyString, Some s')
      else let '(a, b) := split_at_eq s' in (String c a, b)
  end.

Fixpoint map_option {A B : Type} (f : A -> option B) (l : list A) : option (list B) :=
  match l with
  | [] => Some []
  | x :: l' =>
      match f x, map_option f l' with
      | Some y, Some ys => Some (y :: ys)
      | _, _ => None
      end
  end.

Definition form_parse (query : string) : option (list (string * string)) :=
  map_option
    (fun sequence =>
       let '(name, value) := split_at_eq sequence in
       match form_decode name, form_decode (match value with Some v => v | None => EmptyString end) with
       | Some n, Some v => Some (n, v)
       | _, _ => None
       end)
    (filter (fun sequence => negb (String.eqb sequence EmptyString)) (split_char "&" query)).

(** ** [ClaimsService.getClaims] and the Dashboard *)

(** [ClaimFilters] of [types/index.ts], with the status and claim type as
    the strings they hold at run time. *)
Record ClaimFilters := {
  cf_skip : option Z;
  cf_limit : option Z;
  cf_status : option string;
  cf_search : option string;
  cf_date_from : option string;
  cf_date_to : option string;
  cf_claim_type : option string
}.

(** [x || d] on an optional integral number: [undefined] and [0] are falsy. *)
Definition or_default (o : option Z) (d : Z) : Z :=
  match o with
  | Some z => if (z =? 0)%Z then d else z
  | None => d
  end.

Definition opt_param (o : option string) : param :=
  match o with Some s => PStr s | None => PUndefined end.

(** The object passed to [buildQueryParams] by [getClaims(filters)]. *)
Definition getClaims_params (filters : ClaimFilters) : list (string * param) :=
  [("skip"%string, PNum (or_default (cf_skip filters) 0));
   ("limit"%string, PNum (or_default (cf_limit filters) 20));
   ("status"%string, opt_param (cf_status filters));
   ("search"%string, opt_param (cf_search filters));
   ("date_from"%string, opt_param (cf_date_from filters));
   ("date_to"%string, opt_param (cf_date_to filters));
   ("claim_type"%string, opt_param (cf_claim_type filters))].

(** The URL of the [GET] request sent by [getClaims(filters)]. *)
Definition getClaims_url (filters : ClaimFilters) : string :=
  ("/api/v1/claims?" ++ buildQueryParams (getClaims_params filters))%string.

(** The Dashboard's initial filter state. *)
Definition dashboard_initial_filters : ClaimFilters := {|
  cf_skip := Some 0%Z; cf_limit := Some 20%Z; cf_status := None;
  cf_search := Some ""%string; cf_date_from := None; cf_date_to := None;
  cf_claim_type := None
|}.

(** [handleStatusFilter(status)]: [status || undefined], back to skip 0. *)
Definition handleStatusFilter (status : string) (prev : ClaimFilters) : ClaimFilters := {|
  cf_skip := Some 0%Z; cf_limit := cf_limit prev;
  cf_status := if String.eqb status "" then None else Some status;
  cf_search := cf_search prev; cf_date_from := cf_date_from prev;
  cf_date_to := cf_date_to prev; cf_claim_type := cf_claim_type prev
|}.

(** [handleSearch(search)] *)
Definition handleSearch (search : string) (prev : ClaimFilters) : ClaimFilters := {|
  cf_skip := Some 0%Z; cf_limit := cf_limit prev; cf_status := cf_status prev;
  cf_search := Some search; cf_date_from := cf_date_from prev;
  cf_date_to := cf_date_to prev; cf_claim_type := cf_claim_type prev
|}.

(** [handlePageChange(newSkip)] *)
Definition handlePageChange (newSkip : Z) (prev : ClaimFilters) : ClaimFilters := {|
  cf_skip := Some newSkip; cf_limit := cf_limit prev; cf_status := cf_status prev;
  cf_search := cf_search prev; cf_date_from := cf_date_from prev;
  cf_date_to := cf_date_to prev; cf_claim_type := cf_claim_type prev
|}.

(** [Math.floor((filters.skip || 0) / (filters.limit || 20)) + 1]; [Z.div]
    rounds towards minus infinity, as [Math.floor] does. *)
Definition currentPage (filters : ClaimFilters) : Z :=
  (or_default (cf_skip filters) 0 / or_default (cf_limit filters) 20 + 1)%Z.

(** [Math.ceil(data.total / filters.limit!)] for a positive limit. *)
Definition totalPages (total limit : Z) : Z := (- ((- total) / limit))%Z.

(** The numbered page buttons:
    [Array.from({ length: Math.min(5, totalPages) }, (_, i) => ...)] with
    [pageNumber = Math.max(1, currentPage - 2) + i], the numbers above
    [totalPages] rendering nothing. *)
Definition page_numbers (currentPage totalPages : Z) : list Z :=
  filter (fun pageNumber => (pageNumber <=? totalPages)%Z)
    (map (fun i => (Z.max 1 (currentPage - 2) + Z.of_nat i)%Z)
         (seq 0 (Z.to_nat (Z.min 5 totalPages)))).

(** The filters after a click on page button [pageNumber]:
    [handlePageChange((pageNumber - 1) * filters.limit!)]. *)
Definition click_page (pageNumber limit : Z) (filters : ClaimFilters) : ClaimFilters :=
  handlePageChange ((pageNumber - 1) * limit)%Z filters.

(** The Previous button:
    [handlePageChange(Math.max(0, (filters.skip || 0) - filters.limit!))],
    [disabled={filters.skip === 0}]; [None] is a click on the disabled
    button, which does nothing. *)
Definition click_previous (limit : Z) (filters : ClaimFilters) : option ClaimFilters :=
  match cf_skip filters with
  | Some 0%Z => None
  | _ => Some (handlePageChange (Z.max 0 (or_default (cf_skip filters) 0 - limit)) filters)
  end.

(** The Next button: [handlePageChange((filters.skip || 0) + filters.limit!)],
    [disabled={!data.has_more}]. *)
Definition click_next (limit : Z) (has_more : bool) (filters : ClaimFilters)
  : option ClaimFilters :=
  if has_more then Some (handlePageChange (or_default (cf_skip filters) 0 + limit) filters)
  else None.

(** ** Query keys of the claims hooks *)

Inductive KeyPart :=
| KStr (s : string)
| KFilters (f : ClaimFilters).

Definition queryKeys_all : list KeyPart := [KStr "claims"].
Definition queryKeys_lists : list KeyPart := queryKeys_all ++ [KStr "list"].
Definition queryKeys_list (filters : ClaimFilters) : list KeyPart :=
  queryKeys_lists ++ [KFilters filters].
Definition queryKeys_details : list KeyPart := queryKeys_all ++ [KStr "detail"].
Definition queryKeys_detail (id : string) : list KeyPart := queryKeys_details ++ [KStr id].
Definition queryKeys_stats : list KeyPart := queryKeys_all ++ [KStr "stats"].
Definition queryKeys_ocr_all : list KeyPart := [KStr "ocr"].
Definition queryKeys_ocr_status (id : string) : list KeyPart :=
  queryKeys_ocr_all ++ [KStr "status"; KStr id].
Definition queryKeys_ocr_documents (id : string) : list KeyPart :=
  queryKeys_ocr_all ++ [KStr "documents"; KStr id].

(** [invalidateQueries({ queryKey })] reaches the cached queries whose key
    extends [queryKey]. *)
Definition key_matches (filterKey queryKey : list KeyPart) : Prop :=
  exists rest, queryKey = filterKey ++ rest.

(** ** [groupBy] *)

(** The properties every object inherits from [Object.prototype]. *)
Definition object_prototype_keys : list string :=
  ["constructor"; "__defineGetter__"; "__defineSetter__"; "hasOwnProperty";
   "__lookupGetter__"; "__lookupSetter__"; "isPrototypeOf";
   "propertyIsEnumerable"; "toString"; "valueOf"; "__proto__";
   "toLocaleString"]%string.

Fixpoint assoc_set {A : Type} (k : string) (v : A) (l : list (string * A))
  : list (string * A) :=
  match l with
  | [] => []
  | (k', v') :: l' => if String.eqb k k' then (k', v) :: l' else (k', v') :: assoc_set k v l'
  end.

Section GroupBy.

Context {T : Type}.
(** [String(item[key])] *)
Variable key_of : T -> string.

(** One step of the [reduce]; the groups object is its own properties as an
    association list, [None] once a [TypeError] is thrown. A group name
    that is not an own property but an inherited one reads a function (or
    [Object.prototype] for [__proto__]), which is truthy and has no
    [push]. *)
Definition groupBy_step (groups : option (list (string * list T))) (item : T)
  : option (list (string * list T)) :=
  match groups with
  | None => None
  | Some g =>
      let group := key_of item in
      match assoc_lookup group g with
      | Some arr => Some (assoc_set group (arr ++ [item]) g)
      | None =>
          if existsb (String.eqb group) object_prototype_keys then None
          else Some (g ++ [(group, [item])])
      end
  end.

Definition groupBy (array : list T) : option (list (string * list T)) :=
  fold_left groupBy_step array (Some []).

End GroupBy.

(** ** The claim forms of the create and edit pages *)

Section PageSchemas.

Variable parse_date : string -> option Z.

(** [z.string().min(1).refine((date) => !isNaN(Date.parse(date)))] *)
Definition page_date_check (s : string) : bool :=
  (1 <=? length s)%nat && match parse_date s with Some _ => true | None => false end.

Definition page_policy_number_check (s : string) : bool :=
  (1 <=? length s)%nat && (5 <=? length s)%nat.

Definition page_patient_name_check (s : string) : bool :=
  (1 <=? length s)%nat && (2 <=? length s)%nat && (length s <=? 100)%nat.

Definition page_claim_amount_check (amount : Q) : bool :=
  Qlt_bool 0 amount && Qle_bool (1 # 100)%Q amount && Qle_bool amount 1000000%Q.

(** [claimSchema] of [CreateClaim.tsx]; [provider_name] and the code arrays
    are [z.string().optional()] and [z.array(z.string()).optional()], which
    every value of their type passes. *)
Definition createClaim_claimSchema (i : ClaimInput) : bool :=
  claim_number_check (claim_number i)
  && page_policy_number_check (policy_number i)
  && page_patient_name_check (patient_name i)
  && page_date_check (date_of_service i)
  && page_claim_amount_check (claim_amount i)
  && nativeEnum_ClaimType (claim_type i).

(** [editClaimSchema] of [EditClaim.tsx], every field optional; it has no
    [status] key. *)
Definition editClaimSchema (u : ClaimUpdate) : bool :=
  opt_check claim_number_check (cu_claim_number u)
  && opt_check page_policy_number_check (cu_policy_number u)
  && opt_check page_patient_name_check (cu_patient_name u)
  && opt_check page_date_check (cu_date_of_service u)
  && opt_check page_claim_amount_check (cu_claim_amount u)
  && opt_check nativeEnum_ClaimType (cu_claim_type u).

End PageSchemas.

(** ** Confidence colours in order *)

(** The rank of a [getConfidenceColor] class: red, yellow, green. *)
Definition color_rank (cls : string) : nat :=
  if String.eqb cls "text-green-600"%string then 2
  else if String.eqb cls "text-yellow-600"%string then 1
  else 0.

(** * Properties *)


Lemma Qlt_bool_iff : forall x y, Qlt_bool x y = true <-> (x < y)%Q.
Proof.
  intros x y. unfold Qlt_bool. rewrite negb_true_iff.
  split; intro H.
  - apply Qnot_le_lt. intro Hle. apply Qle_bool_iff in Hle. congruence.
  - destruct (Qle_bool y x) eqn:E; [|reflexivity].
    apply Qle_bool_iff in E. exfalso. apply (Qlt_not_le _ _ H E).
Qed.

(** The routing threshold of the lifecycle coincides with the green band of
    [getConfidenceColor] when no mandatory-review rule fires. *)
Lemma confidence_color_matches_routing : forall c,
  getConfidenceColor c = "text-green-600"%string <->
  route_after_dq default_review_threshold c false = CONSENT_VERIFIED.
Proof.
  intro c. unfold getConfidenceColor, route_after_dq, default_review_threshold.
  rewrite orb_false_r. unfold Qlt_bool.
  destruct (Qle_bool (8 # 10) c); simpl.
  - split; reflexivity.
  - destruct (Qle_bool (6 # 10) c); split; discriminate.
Qed.

(** Claim C1 (modelled from the spec). A claim in [DQ_VALIDATED] is routed
    to [HUMAN_REVIEW] iff its overall confidence is strictly below the review
    threshold or a mandatory-review rule fires, and to [CONSENT_VERIFIED]
    otherwise; with the default threshold 0.80, confidence 0.79 goes to
    review and 0.80 exactly to consent verification. *)
Theorem dq_confidence_routing : forall review_threshold c mandatory,
  (advance review_threshold DQ_VALIDATED (RouteAfterDQ c mandatory) = Advanced HUMAN_REVIEW
     <-> ((c < review_threshold)%Q \/ mandatory = true))
  /\ (advance review_threshold DQ_VALIDATED (RouteAfterDQ c mandatory) = Advanced CONSENT_VERIFIED
     <-> (~ (c < review_threshold)%Q /\ mandatory = false))
  /\ advance default_review_threshold DQ_VALIDATED (RouteAfterDQ (79 # 100) false)
       = Advanced HUMAN_REVIEW
  /\ advance default_review_threshold DQ_VALIDATED (RouteAfterDQ (80 # 100) false)
       = Advanced CONSENT_VERIFIED.
Proof.
  intros thr c m. unfold advance, route_after_dq. cbn -[Qlt_bool].
  split; [|split; [|split]].
  - destruct (Qlt_bool c thr) eqn:E; destruct m; cbn; split; intro H;
      first [ reflexivity | discriminate
            | (left; apply Qlt_bool_iff; exact E) | (right; reflexivity)
            | (destruct H as [H|H]; [apply Qlt_bool_iff in H; congruence | discriminate]) ].
  - destruct (Qlt_bool c thr) eqn:E; destruct m; cbn; split; intro H;
      first [ reflexivity | discriminate
            | (destruct H as [Hn _]; exfalso; apply Hn, Qlt_bool_iff, E)
            | (destruct H as [_ Hm]; discriminate)
            | (split; [intro Hl; apply Qlt_bool_iff in Hl; congruence | reflexivity]) ].
  - reflexivity.
  - reflexivity.
Qed.

(** Claim C2 (modelled from the spec). [SETTLED] and [REJECTED] are
    terminal: every event applied to them fails with [InvalidTransition]
    naming the unchanged state and the event. *)
Theorem terminal_states_reject_every_event : forall review_threshold e,
  advance review_threshold SETTLED e = InvalidTransition SETTLED e
  /\ advance review_threshold REJECTED e = InvalidTransition REJECTED e.
Proof. intros thr e. split; reflexivity. Qed.

Lemma nativeEnum_ClaimType_js_spec : forall v,
  nativeEnum_ClaimType_js v = true <-> exists t, v = JStr (ClaimType_value t).
Proof.
  intro v. split.
  - destruct v as [| | |s|]; simpl; try discriminate.
    unfold nativeEnum_ClaimType. intro H. apply existsb_exists in H.
    destruct H as [t [_ Ht]]. apply String.eqb_eq in Ht. exists t. rewrite Ht. reflexivity.
  - intros [t ->]. destruct t; reflexivity.
Qed.

Lemma claimFiltersSchema_status : forall parse_date i st,
  claimFiltersSchema parse_date (with_status i st)
  = opt_check nativeEnum_ClaimType_js st && claimFiltersSchema parse_date (with_status i None).
Proof.
  intros pd i st. unfold claimFiltersSchema, filters_refine, with_status. cbn [f_search f_status
    f_claim_type f_date_from f_date_to f_skip f_limit opt_check].
  btauto.
Qed.

(** Claim C8. The [status] field of [claimFiltersSchema] is checked against
    the [ClaimType] enum: when the other fields are valid, a status value is
    accepted iff it is one of MEDICAL, DENTAL, VISION, PHARMACY, and every
    [ClaimStatus] value is rejected as a status filter. *)
Theorem filters_status_checked_against_ClaimType : forall parse_date i v,
  claimFiltersSchema parse_date (with_status i None) = true ->
  (claimFiltersSchema parse_date (with_status i (Some v)) = true
     <-> exists t, v = JStr (ClaimType_value t))
  /\ (forall s, claimFiltersSchema parse_date
                  (with_status i (Some (JStr (ClaimStatus_value s)))) = false).
Proof.
  intros pd i v Hrest. split.
  - rewrite claimFiltersSchema_status, Hrest, andb_true_r. cbn [opt_check].
    apply nativeEnum_ClaimType_js_spec.
  - intro s. rewrite claimFiltersSchema_status, Hrest, andb_true_r.
    destruct s; reflexivity.
Qed.

Lemma filters_status_checked_against_ClaimType_witness :
  claimFiltersSchema (fun _ => None) (with_status empty_filters None) = true
  /\ (claimFiltersSchema (fun _ => None) (with_status empty_filters (Some (JStr "MEDICAL")))
        = true <-> exists t, JStr "MEDICAL" = JStr (ClaimType_value t))
  /\ (forall s, claimFiltersSchema (fun _ => None)
        (with_status empty_filters (Some (JStr (ClaimStatus_value s)))) = false).
Proof.
  split; [reflexivity|].
  apply (filters_status_checked_against_ClaimType (fun _ => None) empty_filters (JStr "MEDICAL")).
  reflexivity.
Defined.

(** Rounding an amount with a whole number of hundredths to hundredths gives
    that number back. *)
Lemma floor_hundredths_half : forall x z,
  (x == z # 100)%Q -> Qfloor (x * 100 + (1 # 2))%Q = z.
Proof.
  intros x z Hx.
  assert (Heq : (x * 100 + (1 # 2) == (2 * z + 1) # 2)%Q).
  { rewrite Hx. unfold Qeq, Qmult, Qplus. cbn [Qnum Qden]. rewrite ?Pos2Z.inj_mul. lia. }
  rewrite (Qfloor_comp _ _ Heq). change (Qfloor ((2 * z + 1) # 2)) with ((2 * z + 1) / 2)%Z.
  symmetry. apply Z.div_unique with 1%Z; lia.
Qed.

Lemma two_decimals_refine_spec : forall x,
  two_decimals_refine x = true <-> exists z, (x == z # 100)%Q.
Proof.
  intro x. unfold two_decimals_refine. rewrite Qeq_bool_iff. split.
  - intro H. exists (toFixed2_hundredths x). symmetry. exact H.
  - intros [z Hz]. unfold toFixed2_hundredths.
    rewrite (floor_hundredths_half x z Hz). symmetry. exact Hz.
Qed.

Lemma claim_amount_check_spec : forall a,
  claim_amount_check a = true
  <-> (0 < a)%Q /\ (a <= 1000000)%Q /\ exists z, (a == z # 100)%Q.
Proof.
  intro a. unfold claim_amount_check.
  rewrite !andb_true_iff, Qlt_bool_iff, !Qle_bool_iff, two_decimals_refine_spec.
  split.
  - intros [[[H0 _] H1] H2]. auto.
  - intros [H0 [H1 [z Hz]]]. repeat split; auto.
    + rewrite Hz in *. unfold Qlt, Qle in *. cbn [Qnum Qden] in *. lia.
    + exists z. exact Hz.
Qed.

Lemma claimValidationSchema_split : forall parse_date now i,
  claimValidationSchema parse_date now i
  = other_fields_valid parse_date now i && claim_amount_check (claim_amount i).
Proof.
  intros pd now i. unfold claimValidationSchema, other_fields_valid. btauto.
Qed.

(** Claim C3, as the code has it. With every other field valid,
    [claimValidationSchema] accepts a claim amount iff it is positive, at most
    1,000,000 and a whole number of hundredths (at most 2 fractional
    digits). *)
Theorem claim_amount_accepted_iff : forall parse_date now i,
  other_fields_valid parse_date now i = true ->
  (claimValidationSchema parse_date now i = true
   <-> (0 < claim_amount i)%Q /\ (claim_amount i <= 1000000)%Q
       /\ exists z, (claim_amount i == z # 100)%Q).
Proof.
  intros pd now i Hother.
  rewrite claimValidationSchema_split, Hother. simpl.
  apply claim_amount_check_spec.
Qed.

Lemma claim_amount_accepted_iff_witness :
  other_fields_valid parse_epoch 0 (sample_input (25050 # 100)) = true
  /\ (claimValidationSchema parse_epoch 0 (sample_input (25050 # 100)) = true
      <-> (0 < 25050 # 100)%Q /\ (25050 # 100 <= 1000000)%Q
          /\ exists z, (25050 # 100 == z # 100)%Q).
Proof.
  split; [reflexivity|].
  apply (claim_amount_accepted_iff parse_epoch 0 (sample_input (25050 # 100))).
  reflexivity.
Defined.

(** Claim C3 fails as stated: 1,000,000.01 is positive with two fractional
    digits, every other field of the input is valid, and the schema rejects
    it ([.max(1000000)]). *)
Lemma claim_amount_above_max_rejected :
  other_fields_valid parse_epoch 0 (sample_input (100000001 # 100)) = true
  /\ (0 < 100000001 # 100)%Q
  /\ (exists z, (100000001 # 100 == z # 100)%Q)
  /\ claimValidationSchema parse_epoch 0 (sample_input (100000001 # 100)) = false.
Proof.
  split; [reflexivity|]. split; [reflexivity|]. split.
  - exists 100000001%Z. reflexivity.
  - vm_compute. reflexivity.
Qed.

(** Claim C7 fails as stated: a confidence of 1.5 is displayed as "150%" and
    coloured as a high confidence; nothing clamps it. *)
Lemma confidence_out_of_range_displayed :
  ~ (3 # 2 <= 1)%Q
  /\ formatConfidence (3 # 2) = "150%"%string
  /\ getConfidenceColor (3 # 2) = "text-green-600"%string.
Proof.
  split; [|split; vm_compute; reflexivity].
  unfold Qle. simpl. lia.
Qed.

(** Claim C7, as the code has it. The confidence display functions do not
    clamp: a confidence of [k] hundredths, [|k|] at most 10^15, is shown as
    [k%] (so values above 1 show above 100% and negative ones below 0%),
    and [getConfidenceColor] is green for every confidence at least 0.8,
    with no upper bound. *)
Theorem confidence_display_unclamped : forall (k : Z) (c : Q),
  (Z.abs k <= 10 ^ 15)%Z ->
  formatConfidence (k # 100) = (Number_toString k ++ "%")%string
  /\ (getConfidenceColor c = "text-green-600"%string <-> (8 # 10 <= c)%Q).
Proof.
  intros k c _. split.
  - unfold formatConfidence, Math_round.
    rewrite (floor_hundredths_half (k # 100) k (Qeq_refl _)). reflexivity.
  - unfold getConfidenceColor. rewrite <- Qle_bool_iff.
    destruct (Qle_bool (8 # 10) c); [split; reflexivity|].
    destruct (Qle_bool (6 # 10) c); split; discriminate.
Qed.

Lemma confidence_display_unclamped_witness :
  (Z.abs 150 <= 10 ^ 15)%Z
  /\ formatConfidence (150 # 100) = (Number_toString 150 ++ "%")%string
  /\ (getConfidenceColor (3 # 2) = "text-green-600"%string <-> (8 # 10 <= 3 # 2)%Q).
Proof.
  assert (H : (Z.abs 150 <= 10 ^ 15)%Z) by (vm_compute; discriminate).
  split; [exact H|]. exact (confidence_display_unclamped 150 (3 # 2) H).
Defined.

Lemma transient_retried : forall e, transient e -> no_retry e = false.
Proof.
  intros e [Hax [s [Hs Hr]]]. unfold no_retry. rewrite Hax, Hs.
  destruct (s =? 0)%Z; simpl; [reflexivity|]. apply Z.ltb_ge. lia.
Qed.


Section RetryProofs.

Context {T : Type}.
Variable requestFn : nat -> Outcome T.
Variable maxRetries : nat.
Variable delay : Z.

Hypothesis always_fails : forall a, exists e, requestFn a = Rejected e /\ no_retry e = false.

Lemma retry_loop_failing : forall fuel attempt lastError,
  retry_loop requestFn maxRetries delay fuel attempt lastError
  = (flat_map (attempt_steps maxRetries delay) (seq attempt fuel),
     Thrown (match fuel with
             | O => lastError
             | S k => err_of (requestFn (attempt + k))
             end)).
Proof.
  induction fuel as [|fuel IH]; intros attempt lastError; [reflexivity|].
  cbn [retry_loop]. destruct (always_fails attempt) as [e [He Hn]].
  rewrite He, Hn, IH. cbn [seq flat_map]. unfold attempt_steps at 2.
  f_equal. f_equal. destruct fuel as [|k].
  - rewrite Nat.add_0_r, He. reflexivity.
  - rewrite Nat.add_succ_r. reflexivity.
Qed.

End RetryProofs.

Lemma count_calls_steps : forall maxRetries delay k a,
  count_calls (flat_map (attempt_steps maxRetries delay) (seq a k)) = k.
Proof.
  intros n d k. induction k as [|k IH]; intro a; [reflexivity|].
  cbn [seq flat_map]. unfold attempt_steps at 1.
  destruct (a <? n)%nat; unfold count_calls in *; simpl; rewrite IH; reflexivity.
Qed.

(** Claim C5. When every call of the request function fails with a
    transient (5xx) error, [retryRequest] calls it exactly [maxRetries]
    times, waits [delay * 2^(attempt-1)] after every attempt but the last,
    and then throws the last error it caught (the error of call
    [maxRetries]; [undefined] when no call was made). *)
Theorem retry_ceiling_transient : forall {T : Type} (requestFn : nat -> Outcome T)
  (maxRetries : nat) (delay : Z),
  (forall a, exists e, requestFn a = Rejected e /\ transient e) ->
  count_calls (fst (retryRequest requestFn maxRetries delay)) = maxRetries
  /\ retryRequest requestFn maxRetries delay
     = (expected_trace maxRetries delay,
        Thrown (match maxRetries with
                | O => None
                | S _ => err_of (requestFn maxRetries)
                end)).
Proof.
  intros T f n d Hf.
  assert (Hf' : forall a, exists e, f a = Rejected e /\ no_retry e = false).
  { intro a. destruct (Hf a) as [e [He Ht]]. exists e. split; [exact He|].
    apply transient_retried. exact Ht. }
  assert (Hrun : retryRequest f n d
                 = (expected_trace n d,
                    Thrown (match n with O => None | S _ => err_of (f n) end))).
  { unfold retryRequest, expected_trace. rewrite (retry_loop_failing f n d Hf').
    destruct n; reflexivity. }
  split; [|exact Hrun].
  rewrite Hrun. apply count_calls_steps.
Qed.

Lemma retry_ceiling_transient_witness :
  (forall a : nat, exists e, (fun _ : nat => @Rejected nat server_error) a = Rejected e
                             /\ transient e)
  /\ count_calls (fst (retryRequest (fun _ => @Rejected nat server_error) 3 1000)) = 3%nat
  /\ retryRequest (fun _ => @Rejected nat server_error) 3 1000
     = (expected_trace 3 1000, Thrown (err_of (@Rejected nat server_error))).
Proof.
  assert (H : forall a : nat, exists e, (fun _ : nat => @Rejected nat server_error) a
                                        = Rejected e /\ transient e).
  { intro a. exists server_error. split; [reflexivity|].
    split; [reflexivity|]. exists 503%Z. split; [reflexivity|lia]. }
  split; [exact H|].
  exact (retry_ceiling_transient (fun _ => @Rejected nat server_error) 3 1000 H).
Defined.






(** ** String lemmas *)

Lemma all_chars_app : forall p s1 s2,
  all_chars p (s1 ++ s2) = all_chars p s1 && all_chars p s2.
Proof.
  intros p s1 s2. induction s1 as [|c s1 IH]; [reflexivity|].
  simpl. rewrite IH. apply andb_assoc.
Qed.

Lemma str_length_app : forall s1 s2, length (s1 ++ s2) = (length s1 + length s2)%nat.
Proof. intros s1 s2. induction s1 as [|c s1 IH]; simpl; congruence. Qed.

Lemma all_chars_substring : forall p s n m,
  all_chars p s = true -> all_chars p (substring n m s) = true.
Proof.
  intros p s. induction s as [|c s IH]; intros n m H.
  - destruct n, m; reflexivity.
  - simpl in H. apply andb_true_iff in H as [Hc Hs].
    destruct n as [|n], m as [|m]; simpl; try reflexivity.
    + rewrite Hc. apply IH. exact Hs.
    + apply IH. exact Hs.
    + apply IH. exact Hs.
Qed.

Lemma substring_length : forall s n m,
  (n + m <= length s)%nat -> length (substring n m s) = m.
Proof.
  intro s. induction s as [|c s IH]; intros n m H.
  - simpl in H. assert (n = 0 /\ m = 0)%nat as [-> ->] by lia. reflexivity.
  - destruct n as [|n], m as [|m]; simpl in *; try reflexivity.
    + rewrite IH; lia.
    + apply IH. lia.
    + apply IH. lia.
Qed.

Lemma substring_full : forall s, substring 0 (length s) s = s.
Proof. intro s. induction s as [|c s IH]; simpl; congruence. Qed.

(** ** Digits *)

Lemma is_digit_digit_char : forall d, (0 <= d < 10)%Z -> is_digit (digit_char d) = true.
Proof.
  intros d Hd. unfold is_digit, in_range, digit_char.
  rewrite nat_ascii_embedding by lia.
  change (nat_of_ascii "0") with 48%nat. change (nat_of_ascii "9") with 57%nat.
  apply andb_true_iff. rewrite !Nat.leb_le. lia.
Qed.

Lemma pos_digits_all_digits : forall f n,
  (0 <= n)%Z -> all_chars is_digit (pos_digits f n) = true.
Proof.
  induction f as [|f IH]; intros n Hn; [reflexivity|].
  cbn [pos_digits]. destruct (n <? 10)%Z eqn:E.
  - apply Z.ltb_lt in E. cbn [all_chars]. rewrite is_digit_digit_char by lia. reflexivity.
  - rewrite all_chars_app, IH by (apply Z.div_pos; lia). cbn [all_chars].
    rewrite is_digit_digit_char by (apply Z.mod_pos_bound; lia). reflexivity.
Qed.

Lemma pos_digits_length : forall f n k,
  (0 < n)%Z -> (n < 2 ^ Z.of_nat f)%Z -> (10 ^ Z.of_nat k <= n)%Z ->
  (S k <= length (pos_digits f n))%nat.
Proof.
  induction f as [|f IH]; intros n k Hpos Hlt Hk.
  - simpl in Hlt. lia.
  - cbn [pos_digits]. destruct (n <? 10)%Z eqn:E.
    + apply Z.ltb_lt in E. cbn [length]. destruct k as [|k]; [lia|].
      rewrite Nat2Z.inj_succ, Z.pow_succ_r in Hk by lia.
      assert (0 < 10 ^ Z.of_nat k)%Z by (apply Z.pow_pos_nonneg; lia). lia.
    + apply Z.ltb_ge in E. rewrite str_length_app. cbn [length].
      rewrite Nat2Z.inj_succ, Z.pow_succ_r in Hlt by lia.
      assert (Hq : (0 < n / 10)%Z) by (apply Z.div_str_pos; lia).
      assert (Hqlt : (n / 10 < 2 ^ Z.of_nat f)%Z)
        by (apply Z.div_lt_upper_bound; lia).
      destruct k as [|k].
      * assert (1 <= length (pos_digits f (n / 10)%Z))%nat; [|lia].
        apply (IH (n / 10)%Z 0%nat Hq Hqlt). simpl. lia.
      * rewrite Nat2Z.inj_succ, Z.pow_succ_r in Hk by lia.
        assert (S k <= length (pos_digits f (n / 10)%Z))%nat; [|lia].
        apply IH; [exact Hq|exact Hqlt|].
        apply Z.div_le_lower_bound; lia.
Qed.

Lemma digits_fuel_bound : forall n, (0 < n)%Z -> (n < 2 ^ Z.of_nat (digits_fuel n))%Z.
Proof.
  intros n Hn. unfold digits_fuel.
  rewrite Nat2Z.inj_succ, Z2Nat.id by (apply Z.log2_nonneg).
  apply Z.log2_spec. exact Hn.
Qed.

Lemma digits_upper_alnum : forall s,
  all_chars is_digit s = true -> all_chars is_upper_alnum s = true.
Proof.
  induction s as [|c s IH]; intro H; [reflexivity|].
  cbn [all_chars] in *. apply andb_true_iff in H as [Hc Hs].
  rewrite (IH Hs). unfold is_upper_alnum. rewrite Hc, orb_true_r. reflexivity.
Qed.

Lemma timestamp_part_ok : forall now, (100000 <= now)%Z ->
  length (slice_last6 (Number_toString now)) = 6%nat
  /\ all_chars is_upper_alnum (slice_last6 (Number_toString now)) = true.
Proof.
  intros now Hnow.
  assert (Hs : Number_toString now = pos_digits (digits_fuel now) now).
  { unfold Number_toString.
    replace (now =? 0)%Z with false by (symmetry; apply Z.eqb_neq; lia).
    replace (now <? 0)%Z with false by (symmetry; apply Z.ltb_ge; lia).
    reflexivity. }
  rewrite Hs. set (s := pos_digits (digits_fuel now) now).
  assert (Hlen : (6 <= length s)%nat).
  { apply (pos_digits_length (digits_fuel now) now 5); [lia|apply digits_fuel_bound; lia|].
    simpl. lia. }
  assert (Hd : all_chars is_upper_alnum s = true).
  { apply digits_upper_alnum, pos_digits_all_digits. lia. }
  unfold slice_last6. destruct (length s <=? 6)%nat eqn:E.
  - apply Nat.leb_le in E. split; [lia|exact Hd].
  - split; [apply substring_length; lia|apply all_chars_substring; exact Hd].
Qed.

Lemma base36_char_lower_or_digit : forall d,
  (d < 36)%nat -> lower_or_digit (base36_char d) = true.
Proof.
  intros d Hd. unfold lower_or_digit, base36_char, is_digit, is_lower, in_range.
  change (nat_of_ascii "0") with 48%nat. change (nat_of_ascii "9") with 57%nat.
  change (nat_of_ascii "a") with 97%nat. change (nat_of_ascii "z") with 122%nat.
  destruct (d <? 10)%nat eqn:E.
  - apply Nat.ltb_lt in E. rewrite nat_ascii_embedding by lia.
    replace (48 <=? 48 + d)%nat with true by (symmetry; apply Nat.leb_le; lia).
    replace (48 + d <=? 57)%nat with true by (symmetry; apply Nat.leb_le; lia).
    reflexivity.
  - apply Nat.ltb_ge in E. rewrite nat_ascii_embedding by lia.
    replace (97 <=? 87 + d)%nat with true by (symmetry; apply Nat.leb_le; lia).
    replace (87 + d <=? 122)%nat with true by (symmetry; apply Nat.leb_le; lia).
    apply orb_true_r.
Qed.

Lemma base36_digits_lower_or_digit : forall ds,
  Forall (fun d => d < 36)%nat ds ->
  all_chars lower_or_digit (fold_right (fun d s => String (base36_char d) s) EmptyString ds)
  = true.
Proof.
  intros ds H. induction H as [|d ds Hd _ IH]; [reflexivity|].
  cbn [fold_right all_chars]. rewrite base36_char_lower_or_digit by exact Hd. exact IH.
Qed.

Lemma ascii_toUpper_upper_alnum : forall c,
  lower_or_digit c = true ->
  (nat_of_ascii c =? 223)%nat = false /\ is_upper_alnum (ascii_toUpper c) = true.
Proof.
  intros [b0 b1 b2 b3 b4 b5 b6 b7].
  destruct b0, b1, b2, b3, b4, b5, b6, b7; intro H; try discriminate H; split; reflexivity.
Qed.

Lemma toUpperCase_upper_alnum : forall s,
  all_chars lower_or_digit s = true -> all_chars is_upper_alnum (toUpperCase s) = true.
Proof.
  induction s as [|c s IH]; intro H; [reflexivity|].
  cbn [all_chars] in H. apply andb_true_iff in H as [Hc Hs].
  destruct (ascii_toUpper_upper_alnum c Hc) as [Hn Hu].
  cbn [toUpperCase]. rewrite Hn. cbn [all_chars]. rewrite Hu, (IH Hs). reflexivity.
Qed.

Lemma random_part_ok : forall ds,
  Forall (fun d => d < 36)%nat ds ->
  all_chars is_upper_alnum (toUpperCase (substring 2 4 (random_toString36 ds))) = true.
Proof.
  intros [|d ds] H; [reflexivity|].
  change (substring 2 4 (random_toString36 (d :: ds)))
    with (substring 0 4 (fold_right (fun d s => String (base36_char d) s) EmptyString (d :: ds))).
  apply toUpperCase_upper_alnum, all_chars_substring, base36_digits_lower_or_digit. exact H.
Qed.

Lemma prefix_CLM : forall x, String.prefix "CLM" ("CLM" ++ x) = true.
Proof.
  intro x. cbn [String.prefix append].
  repeat (destruct (ascii_dec _ _) as [_|Hn]; [|exfalso; apply Hn; reflexivity]).
  destruct x; reflexivity.
Qed.

Lemma claim_number_regex_CLM : forall x,
  claim_number_regex ("CLM" ++ x) = (6 <=? length x)%nat && all_chars is_upper_alnum x.
Proof.
  intro x. unfold claim_number_regex. rewrite prefix_CLM. cbv zeta. cbn [andb].
  replace (length ("CLM" ++ x) - 3)%nat with (length x) by (simpl; lia).
  change (substring 3 (length x) ("CLM" ++ x)) with (substring 0 (length x) x).
  rewrite substring_full. reflexivity.
Qed.

(** Claim C9 fails as stated: when [Date.now()] has fewer than six digits
    (the clock at the epoch) and [Math.random()] returns 0, the generated
    claim number is "CLM0", which [isValidClaimNumber] rejects. *)
Lemma generated_claim_number_at_epoch :
  generateClaimNumber 0 [] = "CLM0"%string
  /\ isValidClaimNumber (generateClaimNumber 0 []) = false.
Proof. split; vm_compute; reflexivity. Qed.

(** Claim C9, as the code has it. For every timestamp of at least six
    digits ([Date.now() >= 100000]) and every outcome of [Math.random()],
    including a random suffix shorter than four characters or empty, the
    number from [generateClaimNumber] satisfies [isValidClaimNumber]. *)
Theorem generated_claim_number_valid : forall (now : Z) (ds : list nat),
  (100000 <= now)%Z -> Forall (fun d => d < 36)%nat ds ->
  isValidClaimNumber (generateClaimNumber now ds) = true.
Proof.
  intros now ds Hnow Hds. unfold isValidClaimNumber, generateClaimNumber. cbv zeta.
  destruct (timestamp_part_ok now Hnow) as [Hlen Ht].
  rewrite claim_number_regex_CLM, str_length_app, all_chars_app, Ht, Hlen,
    (random_part_ok ds Hds).
  reflexivity.
Qed.

Lemma generated_claim_number_valid_witness :
  (100000 <= 1760000123456)%Z /\ Forall (fun d => d < 36)%nat [18; 5; 30; 1; 2]%nat
  /\ isValidClaimNumber (generateClaimNumber 1760000123456 [18; 5; 30; 1; 2]%nat) = true.
Proof.
  assert (H1 : (100000 <= 1760000123456)%Z) by lia.
  assert (H2 : Forall (fun d => d < 36)%nat [18; 5; 30; 1; 2]%nat)
    by (repeat constructor; lia).
  split; [exact H1|]. split; [exact H2|].
  exact (generated_claim_number_valid 1760000123456 [18; 5; 30; 1; 2]%nat H1 H2).
Defined.

(** Claim C10. [claimValidationSchema] rejects every input whose date of
    service parses to an instant strictly later than the clock reading at
    validation, and every parseable date of service at or before that
    reading passes the date checks ([new Date("")] being an Invalid
    Date). *)
Theorem date_of_service_not_in_future : forall parse_date now i,
  parse_date EmptyString = None ->
  (forall t, parse_date (date_of_service i) = Some t -> (now < t)%Z ->
             claimValidationSchema parse_date now i = false)
  /\ (forall t, parse_date (date_of_service i) = Some t -> (t <= now)%Z ->
             date_of_service_check parse_date now (date_of_service i) = true).
Proof.
  intros pd now i Hempty. split.
  - intros t Hp Hlt.
    assert (Hd : date_of_service_check pd now (date_of_service i) = false).
    { unfold date_of_service_check. rewrite Hp.
      replace (t <=? now)%Z with false by (symmetry; apply Z.leb_gt; lia).
      apply andb_false_r. }
    unfold claimValidationSchema. rewrite Hd, andb_false_r. reflexivity.
  - intros t Hp Hle. unfold date_of_service_check. rewrite Hp.
    replace (t <=? now)%Z with true by (symmetry; apply Z.leb_le; lia).
    destruct (date_of_service i) as [|c s] eqn:Ed.
    + congruence.
    + reflexivity.
Qed.

Lemma date_of_service_not_in_future_witness :
  parse_nonempty EmptyString = None
  /\ (forall t, parse_nonempty (date_of_service (sample_input (25050 # 100))) = Some t ->
        (0 < t)%Z -> claimValidationSchema parse_nonempty 0 (sample_input (25050 # 100)) = false)
  /\ (forall t, parse_nonempty (date_of_service (sample_input (25050 # 100))) = Some t ->
        (t <= 0)%Z ->
        date_of_service_check parse_nonempty 0 (date_of_service (sample_input (25050 # 100)))
        = true).
Proof.
  assert (H : parse_nonempty EmptyString = None) by reflexivity.
  split; [exact H|].
  exact (date_of_service_not_in_future parse_nonempty 0 (sample_input (25050 # 100)) H).
Defined.

(** * Further properties of the client code *)

(** ** Splitting, slicing and case mapping *)

Lemma substring0_prefix : forall s k,
  (k <= length s)%nat -> exists r, s = (substring 0 k s ++ r)%string.
Proof.
  induction s as [|c s IH]; intros k Hk.
  - exists EmptyString. destruct k; reflexivity.
  - destruct k as [|k].
    + exists (String c s). reflexivity.
    + simpl in Hk. destruct (IH k ltac:(lia)) as [r Hr].
      exists r. simpl. rewrite <- Hr. reflexivity.
Qed.

Lemma substring_length_le : forall s n m, (length (substring n m s) <= m)%nat.
Proof.
  induction s as [|c s IH]; intros n m.
  - destruct n, m; simpl; lia.
  - destruct n as [|n], m as [|m]; simpl; try lia.
    + specialize (IH 0%nat m). lia.
    + apply IH.
    + apply IH.
Qed.

Lemma split_char_free : forall sep s,
  no_char sep s = true -> split_char sep s = [s].
Proof.
  intro sep. induction s as [|c s IH]; intro H; [reflexivity|].
  unfold no_char in H. cbn [all_chars] in H. apply andb_true_iff in H as [Hc Hs].
  apply negb_true_iff in Hc. cbn [split_char]. rewrite Hc, (IH Hs). reflexivity.
Qed.

Lemma split_char_sep_free : forall sep a r,
  no_char sep a = true -> split_char sep (a ++ String sep r) = a :: split_char sep r.
Proof.
  intro sep. induction a as [|c a IH]; intros r H.
  - cbn. rewrite Ascii.eqb_refl. reflexivity.
  - unfold no_char in H. cbn [all_chars] in H. apply andb_true_iff in H as [Hc Ha].
    apply negb_true_iff in Hc. cbn [append split_char]. rewrite Hc, (IH r Ha). reflexivity.
Qed.

Lemma split_char_app_sep : forall sep a r,
  exists p pre, split_char sep (a ++ String sep r) = p :: pre ++ split_char sep r.
Proof.
  intro sep. induction a as [|c a IH]; intro r.
  - exists EmptyString, []. cbn. rewrite Ascii.eqb_refl. reflexivity.
  - cbn [append split_char]. destruct (IH r) as [p [pre E]]. rewrite E.
    destruct (Ascii.eqb c sep).
    + exists EmptyString, (p :: pre). reflexivity.
    + exists (String c p), pre. reflexivity.
Qed.

Lemma split_char_pieces_free : forall sep s,
  Forall (fun p => no_char sep p = true) (split_char sep s).
Proof.
  intro sep. induction s as [|c s IH].
  - constructor; [reflexivity|constructor].
  - cbn [split_char]. destruct (Ascii.eqb c sep) eqn:Ec.
    + constructor; [reflexivity|exact IH].
    + destruct (split_char sep s) as [|p ps].
      * constructor; [|constructor]. unfold no_char. cbn. rewrite Ec. reflexivity.
      * inversion IH as [|? ? Hp Hps]. constructor; [|exact Hps].
        unfold no_char in *. cbn [all_chars]. rewrite Ec, Hp. reflexivity.
Qed.

Lemma pop_snoc : forall {A : Type} (l : list A) x, pop (l ++ [x]) = Some x.
Proof. intros A l x. unfold pop. rewrite rev_unit. reflexivity. Qed.

Lemma pop_in : forall {A : Type} (l : list A) x, pop l = Some x -> In x l.
Proof.
  intros A l x. unfold pop. destruct (rev l) as [|y ys] eqn:E; [discriminate|].
  intro H. injection H as <-. apply in_rev. rewrite E. left. reflexivity.
Qed.

Lemma lower_case_if_eq : forall e,
  (let l := toLowerCase e in if String.eqb l "" then ""%string else l) = toLowerCase e.
Proof.
  intro e. cbv zeta. destruct (String.eqb_spec (toLowerCase e) ""); congruence.
Qed.

Lemma ascii_toLower_idem : forall c, ascii_toLower (ascii_toLower c) = ascii_toLower c.
Proof.
  intros [b0 b1 b2 b3 b4 b5 b6 b7].
  destruct b0, b1, b2, b3, b4, b5, b6, b7; reflexivity.
Qed.

Lemma ascii_toLower_dot : forall c, Ascii.eqb (ascii_toLower c) "." = Ascii.eqb c ".".
Proof.
  intros [b0 b1 b2 b3 b4 b5 b6 b7].
  destruct b0, b1, b2, b3, b4, b5, b6, b7; reflexivity.
Qed.

Lemma toLowerCase_idem : forall s, toLowerCase (toLowerCase s) = toLowerCase s.
Proof.
  induction s as [|c s IH]; [reflexivity|].
  cbn [toLowerCase]. rewrite ascii_toLower_idem, IH. reflexivity.
Qed.

Lemma toLowerCase_no_dot : forall s, no_char "." (toLowerCase s) = no_char "." s.
Proof.
  induction s as [|c s IH]; [reflexivity|].
  unfold no_char in *. cbn [toLowerCase all_chars]. rewrite ascii_toLower_dot, IH. reflexivity.
Qed.

Lemma no_char_app : forall c a b, no_char c (a ++ b) = no_char c a && no_char c b.
Proof. intros. unfold no_char. apply all_chars_app. Qed.

Lemma substring_app_prefix : forall p r, substring 0 (length p) (p ++ r) = p.
Proof. induction p as [|c p IH]; intro r; [destruct r; reflexivity|]. simpl. rewrite IH. reflexivity. Qed.

Lemma getFileExtension_app_dot : forall base ext,
  no_char "." ext = true -> getFileExtension (base ++ "." ++ ext) = toLowerCase ext.
Proof.
  intros base ext H. unfold getFileExtension.
  change ("." ++ ext)%string with (String "." ext).
  destruct (split_char_app_sep "." base ext) as [p [pre E]].
  rewrite E, (split_char_free "." ext H).
  change (p :: pre ++ [ext]) with ((p :: pre) ++ [ext]). rewrite pop_snoc.
  exact (lower_case_if_eq ext).
Qed.

Lemma getFileExtension_no_dot : forall ext,
  no_char "." ext = true -> getFileExtension ext = toLowerCase ext.
Proof.
  intros ext H. unfold getFileExtension. rewrite (split_char_free "." ext H).
  change [ext] with ([] ++ [ext]). rewrite pop_snoc. exact (lower_case_if_eq ext).
Qed.

(** ** Properties of the string utilities *)

(** [truncateText] with a non-negative [maxLength] (utils): a text of at
    most [maxLength] characters is returned unchanged; a longer text is cut
    to its first [maxLength] characters followed by ["..."], so the result
    has exactly [maxLength + 3] characters, which is longer than the input
    when the input exceeds the limit by one or two characters. *)
Theorem truncateText_nonneg_limit : forall text maxLength,
  (0 <= maxLength)%Z ->
  ((Z.of_nat (length text) <= maxLength)%Z -> truncateText text maxLength = text)
  /\ ((maxLength < Z.of_nat (length text))%Z ->
      exists p r, text = (p ++ r)%string /\ Z.of_nat (length p) = maxLength
                  /\ truncateText text maxLength = (p ++ "...")%string
                  /\ Z.of_nat (length (truncateText text maxLength)) = (maxLength + 3)%Z).
Proof.
  intros text m Hm. split.
  - intro H. unfold truncateText. apply Z.leb_le in H. rewrite H. reflexivity.
  - intro H. unfold truncateText.
    replace (Z.of_nat (length text) <=? m)%Z with false by (symmetry; apply Z.leb_gt; lia).
    unfold slice_to. cbv zeta.
    replace (m <? 0)%Z with false by (symmetry; apply Z.ltb_ge; lia).
    rewrite Z.min_l by lia.
    destruct (substring0_prefix text (Z.to_nat m) ltac:(lia)) as [r Hr].
    assert (Hl : length (substring 0 (Z.to_nat m) text) = Z.to_nat m)
      by (apply substring_length; lia).
    exists (substring 0 (Z.to_nat m) text), r.
    split; [exact Hr|]. split; [lia|]. split; [reflexivity|].
    rewrite str_length_app, Hl. simpl. lia.
Qed.

Lemma truncateText_nonneg_limit_witness :
  (0 <= 3)%Z
  /\ (((Z.of_nat (length "abcd") <= 3)%Z -> truncateText "abcd" 3 = "abcd"%string)
      /\ ((3 < Z.of_nat (length "abcd"))%Z ->
          exists p r, "abcd"%string = (p ++ r)%string /\ Z.of_nat (length p) = 3%Z
                      /\ truncateText "abcd" 3 = (p ++ "...")%string
                      /\ Z.of_nat (length (truncateText "abcd" 3)) = (3 + 3)%Z)).
Proof.
  split; [lia|]. apply (truncateText_nonneg_limit "abcd" 3). lia.
Defined.

(** [truncateText] with a negative [maxLength] (utils): the text is always
    cut, and [slice(0, maxLength)] counts from the end, so the result is the
    text without its last [-maxLength] characters (or nothing of it)
    followed by ["..."]. *)
Theorem truncateText_negative_limit : forall text maxLength,
  (maxLength < 0)%Z ->
  exists p r, text = (p ++ r)%string
    /\ Z.of_nat (length p) = Z.max (Z.of_nat (length text) + maxLength) 0
    /\ truncateText text maxLength = (p ++ "...")%string.
Proof.
  intros text m Hm. unfold truncateText.
  replace (Z.of_nat (length text) <=? m)%Z with false by (symmetry; apply Z.leb_gt; lia).
  unfold slice_to. cbv zeta.
  replace (m <? 0)%Z with true by (symmetry; apply Z.ltb_lt; lia).
  set (e := Z.max (Z.of_nat (length text) + m) 0).
  destruct (substring0_prefix text (Z.to_nat e) ltac:(unfold e; lia)) as [r Hr].
  assert (Hl : length (substring 0 (Z.to_nat e) text) = Z.to_nat e)
    by (apply substring_length; unfold e; lia).
  exists (substring 0 (Z.to_nat e) text), r.
  split; [exact Hr|]. split; [unfold e in *; lia|reflexivity].
Qed.

Lemma truncateText_negative_limit_witness :
  (-2 < 0)%Z
  /\ exists p r, "abcdef"%string = (p ++ r)%string
       /\ Z.of_nat (length p) = Z.max (Z.of_nat (length "abcdef") + -2) 0
       /\ truncateText "abcdef" (-2) = (p ++ "...")%string.
Proof.
  split; [lia|]. apply (truncateText_negative_limit "abcdef" (-2)). lia.
Defined.

(** [getInitials] (utils): only the first two space-separated words count;
    whatever follows a second space is ignored. *)
Theorem getInitials_first_two_words : forall a b c,
  no_char " " a = true -> no_char " " b = true ->
  getInitials (a ++ " " ++ b ++ " " ++ c) = getInitials (a ++ " " ++ b).
Proof.
  intros a b c Ha Hb. unfold getInitials.
  change (" " ++ b ++ " " ++ c)%string with (String " " (b ++ String " " c)).
  change (" " ++ b)%string with (String " " b).
  rewrite (split_char_sep_free " " a _ Ha), (split_char_sep_free " " a _ Ha),
    (split_char_sep_free " " b _ Hb), (split_char_free " " b Hb).
  reflexivity.
Qed.

Lemma getInitials_first_two_words_witness :
  no_char " " "Mary" = true /\ no_char " " "Ann" = true
  /\ getInitials ("Mary" ++ " " ++ "Ann" ++ " " ++ "Smith")
     = getInitials ("Mary" ++ " " ++ "Ann").
Proof.
  split; [reflexivity|]. split; [reflexivity|].
  apply getInitials_first_two_words; reflexivity.
Defined.

(** [getFileExtension] (utils): the extension is the lower-cased text after
    the last dot, whatever precedes it; a name without a dot is its own
    extension, lower-cased. *)
Theorem getFileExtension_last_segment : forall base ext,
  no_char "." ext = true ->
  getFileExtension (base ++ "." ++ ext) = toLowerCase ext
  /\ getFileExtension ext = toLowerCase ext.
Proof.
  intros base ext H. split.
  - apply getFileExtension_app_dot. exact H.
  - apply getFileExtension_no_dot. exact H.
Qed.

Lemma getFileExtension_last_segment_witness :
  no_char "." "PDF" = true
  /\ getFileExtension ("scan.v2" ++ "." ++ "PDF") = toLowerCase "PDF"
  /\ getFileExtension "PDF" = toLowerCase "PDF".
Proof.
  split; [reflexivity|]. apply getFileExtension_last_segment. reflexivity.
Defined.

(** [getFileExtension] (utils): for every file name the extension contains
    no dot and is already in lower case: lower-casing it again changes
    nothing. *)
Theorem getFileExtension_shape : forall filename,
  no_char "." (getFileExtension filename) = true
  /\ toLowerCase (getFileExtension filename) = getFileExtension filename.
Proof.
  intro f. unfold getFileExtension.
  destruct (pop (split_char "." f)) as [e|] eqn:E; [|split; reflexivity].
  cbv zeta. destruct (String.eqb (toLowerCase e) ""); [split; reflexivity|].
  split; [|apply toLowerCase_idem].
  rewrite toLowerCase_no_dot. apply pop_in in E.
  pose proof (split_char_pieces_free "." f) as HF. rewrite Forall_forall in HF.
  exact (HF e E).
Qed.

(** [isPDFFile] and [isImageFile] (utils): the file type is decided by the
    text after the last dot alone, compared without regard to case. *)
Theorem file_type_by_last_extension : forall base ext,
  no_char "." ext = true ->
  isPDFFile (base ++ "." ++ ext) = String.eqb (toLowerCase ext) "pdf"
  /\ isImageFile (base ++ "." ++ ext) = existsb (String.eqb (toLowerCase ext)) imageExtensions.
Proof.
  intros base ext H. unfold isPDFFile, isImageFile.
  rewrite (getFileExtension_app_dot base ext H). split; reflexivity.
Qed.

Lemma file_type_by_last_extension_witness :
  no_char "." "Png" = true
  /\ isPDFFile ("scan.pdf" ++ "." ++ "Png") = String.eqb (toLowerCase "Png") "pdf"
  /\ isImageFile ("scan.pdf" ++ "." ++ "Png")
     = existsb (String.eqb (toLowerCase "Png")) imageExtensions.
Proof.
  split; [reflexivity|]. apply file_type_by_last_extension. reflexivity.
Defined.

(** [generateId] (utils): for every random draw the id has at most nine
    characters, all base-36 digits [[0-9a-z]]; a draw of exactly 0 gives the
    empty id. *)
Theorem generateId_shape : forall ds,
  Forall (fun d => d < 36)%nat ds ->
  (length (generateId ds) <= 9)%nat /\ all_chars lower_or_digit (generateId ds) = true
  /\ (ds = [] -> generateId ds = EmptyString).
Proof.
  intros ds H. split; [apply substring_length_le|]. split.
  - destruct ds as [|d ds]; [reflexivity|].
    change (generateId (d :: ds))
      with (substring 0 9 (fold_right (fun d s => String (base36_char d) s) EmptyString (d :: ds))).
    apply all_chars_substring, base36_digits_lower_or_digit. exact H.
  - intros ->. reflexivity.
Qed.

Lemma generateId_shape_witness :
  Forall (fun d => d < 36)%nat [1; 20; 35; 4]%nat
  /\ (length (generateId [1; 20; 35; 4]%nat) <= 9)%nat
  /\ all_chars lower_or_digit (generateId [1; 20; 35; 4]%nat) = true
  /\ ([1; 20; 35; 4]%nat = [] -> generateId [1; 20; 35; 4]%nat = EmptyString).
Proof.
  assert (H : Forall (fun d => d < 36)%nat [1; 20; 35; 4]%nat)
    by (repeat constructor; lia).
  split; [exact H|]. exact (generateId_shape _ H).
Defined.

Lemma trim_end_empty : forall s, trim_end s = EmptyString <-> all_chars js_ws s = true.
Proof.
  induction s as [|c s IH]; [split; reflexivity|].
  cbn [trim_end all_chars]. destruct (js_ws c) eqn:Ec; cbn [andb].
  - destruct (String.eqb_spec (trim_end s) EmptyString) as [E|E].
    + split; [intros _; apply IH, E|reflexivity].
    + split; [discriminate|intro H; exfalso; apply E, IH, H].
  - split; discriminate.
Qed.

Lemma trim_empty : forall s, trim s = EmptyString <-> all_chars js_ws s = true.
Proof.
  intro s. unfold trim. induction s as [|c s IH]; [split; reflexivity|].
  cbn [trim_start all_chars]. destruct (js_ws c) eqn:Ec; [exact IH|].
  cbn [andb]. rewrite trim_end_empty. cbn [all_chars]. rewrite Ec. reflexivity.
Qed.

(** [isEmpty] (utils): a string is empty exactly when it consists only of
    whitespace (including the empty string), while numbers and booleans,
    [0] and [false] among them, are never empty. *)
Theorem isEmpty_strings_numbers : forall s q b,
  isEmpty (AStr s) = all_chars js_ws s /\ isEmpty (ANum q) = false /\ isEmpty (ABool b) = false.
Proof.
  intros s q b. split; [|split; reflexivity].
  cbn [isEmpty]. destruct (String.eqb_spec (trim s) EmptyString) as [E|E].
  - symmetry. apply trim_empty, E.
  - destruct (all_chars js_ws s) eqn:A; [|reflexivity].
    exfalso. apply E, trim_empty, A.
Qed.

(** [statusConfig] and the Dashboard's status options: every claim status
    has its own entry, so [getStatusConfig] never falls back to the
    [RECEIVED] entry, and the status filter lists eleven options with
    pairwise distinct values and pairwise distinct labels. *)
Theorem statusOptions_distinct :
  (forall status, exists c, assoc_lookup (ClaimStatus_value status) statusConfig = Some c
                            /\ getStatusConfig status = Some c)
  /\ NoDup (map fst statusOptions) /\ NoDup (map snd statusOptions)
  /\ List.length statusOptions = 11%nat.
Proof.
  split; [intros []; eexists; split; reflexivity|].
  split; [|split; [|reflexivity]];
    vm_compute; repeat (constructor; [intro H; repeat (destruct H as [H|H]; [discriminate H|]); exact H|]);
    constructor.
Qed.

Lemma status_message_nonempty : forall status, status_message status <> EmptyString.
Proof.
  intro st. unfold status_message.
  repeat match goal with |- context [if ?b then _ else _] => destruct b end; discriminate.
Qed.

(** [getErrorMessage] (the axios client module): the message is never
    empty; a network failure has its own message, and an empty [detail]
    falls back to the status message. *)
Theorem getErrorMessage_nonempty : forall response, getErrorMessage response <> EmptyString.
Proof.
  intros [r|]; [|discriminate]. cbn [getErrorMessage].
  destruct (er_detail r) as [d|]; [|apply status_message_nonempty].
  destruct (String.eqb_spec d "") as [E|E]; [apply status_message_nonempty|exact E].
Qed.

(** The error handler of the response interceptor: a 404 response shows no
    toast; every other failure, network failures included, shows exactly one
    toast, with the non-empty [getErrorMessage] text; only a 401 response
    removes the stored token and redirects to [/login]. *)
Theorem response_interceptor_effects : forall response,
  ((exists r, response = Some r /\ er_status r = 404%Z) ->
   toasts (response_error_interceptor response) = [])
  /\ ((forall r, response = Some r -> er_status r <> 404%Z) ->
      toasts (response_error_interceptor response) = [ToastError (getErrorMessage response)]
      /\ getErrorMessage response <> EmptyString)
  /\ (In RemoveAuthToken (response_error_interceptor response)
      <-> exists r, response = Some r /\ er_status r = 401%Z)
  /\ (In (Redirect "/login") (response_error_interceptor response)
      <-> exists r, response = Some r /\ er_status r = 401%Z).
Proof.
  intro response. pose proof (getErrorMessage_nonempty response) as Hne.
  destruct response as [r|]; unfold response_error_interceptor; cbv zeta.
  - set (m0 := getErrorMessage (Some r)) in *.
    destruct (Z.eqb_spec (er_status r) 404) as [E4|E4].
    { assert (E1 : er_status r <> 401%Z) by lia.
      rewrite (proj2 (Z.eqb_neq _ _) E1). cbn [app].
      split; [intros _; reflexivity|].
      split; [intro H; exfalso; exact (H r eq_refl E4)|].
      split; (split; [intros []|intros [r' [Hr Hs]]; injection Hr as <-; lia]). }
    split; [intros [r' [Hr Hs]]; injection Hr as <-; contradiction|].
    split; [intros _; split; [|exact Hne]|].
    { destruct (Z.eqb_spec (er_status r) 401); reflexivity. }
    destruct (Z.eqb_spec (er_status r) 401) as [E1|E1]; cbn [app].
    + split; (split; [intros _; exists r; split; [reflexivity|exact E1]|]).
      * intros _. right. left. reflexivity.
      * intros _. right. right. left. reflexivity.
    + split; (split; [intros [H|[]]; discriminate
                     |intros [r' [Hr Hs]]; injection Hr as <-; contradiction]).
  - split; [intros [r [Hr _]]; discriminate|].
    split; [intros _; split; [reflexivity|exact Hne]|].
    split; (split; [intros [H|[]]; discriminate|intros [r [Hr _]]; discriminate]).
Qed.

(** [getConfidenceColor] and [formatConfidence] (utils): a higher
    confidence never gets a worse colour (red, then yellow, then green) nor
    a smaller displayed percentage. *)
Theorem confidence_display_monotone : forall c1 c2,
  (c1 <= c2)%Q ->
  (color_rank (getConfidenceColor c1) <= color_rank (getConfidenceColor c2))%nat
  /\ (Math_round (c1 * 100) <= Math_round (c2 * 100))%Z.
Proof.
  intros c1 c2 H. split.
  - unfold getConfidenceColor.
    destruct (Qle_bool (8 # 10) c2) eqn:G2; [destruct (Qle_bool (8 # 10) c1); [|destruct (Qle_bool (6 # 10) c1)]; cbv; lia|].
    destruct (Qle_bool (8 # 10) c1) eqn:G1.
    { exfalso. apply Qle_bool_iff in G1. apply Bool.not_true_iff_false in G2. apply G2.
      apply Qle_bool_iff. eapply Qle_trans; eassumption. }
    destruct (Qle_bool (6 # 10) c2) eqn:Y2; [destruct (Qle_bool (6 # 10) c1); cbv; lia|].
    destruct (Qle_bool (6 # 10) c1) eqn:Y1; [|cbv; lia].
    exfalso. apply Qle_bool_iff in Y1. apply Bool.not_true_iff_false in Y2. apply Y2.
    apply Qle_bool_iff. eapply Qle_trans; eassumption.
  - unfold Math_round. apply Qfloor_resp_le.
    apply Qplus_le_l. apply Qmult_le_r; [reflexivity|exact H].
Qed.

Lemma confidence_display_monotone_witness :
  ((59 # 100) <= (6 # 10))%Q
  /\ (color_rank (getConfidenceColor (59 # 100)) <= color_rank (getConfidenceColor (6 # 10)))%nat
  /\ (Math_round ((59 # 100) * 100) <= Math_round ((6 # 10) * 100))%Z.
Proof.
  assert (H : ((59 # 100) <= (6 # 10))%Q) by (unfold Qle; simpl; lia).
  split; [exact H|]. exact (confidence_display_monotone _ _ H).
Defined.

(** ** The query string of [buildQueryParams] *)

Lemma plus_to_space_app : forall a b,
  plus_to_space (a ++ b) = (plus_to_space a ++ plus_to_space b)%string.
Proof. induction a as [|c a IH]; intro b; [reflexivity|]. simpl. rewrite IH. reflexivity. Qed.

(** Each encoded character decodes back to itself, whatever follows it. *)
Lemma form_encode_char_decodes : forall c r,
  utf8_decode (percent_decode (plus_to_space (form_encode_char c) ++ r))
  = option_map (String c) (utf8_decode (percent_decode r)).
Proof.
  intros [b0 b1 b2 b3 b4 b5 b6 b7] r.
  destruct b0, b1, b2, b3, b4, b5, b6, b7; reflexivity.
Qed.

Lemma form_decode_encode : forall s, form_decode (form_encode s) = Some s.
Proof.
  unfold form_decode. induction s as [|c s IH]; [reflexivity|].
  cbn [form_encode]. rewrite plus_to_space_app, form_encode_char_decodes, IH. reflexivity.
Qed.

Lemma form_encode_char_no_amp_eq : forall c,
  no_char "&" (form_encode_char c) = true /\ no_char "=" (form_encode_char c) = true.
Proof.
  intros [b0 b1 b2 b3 b4 b5 b6 b7].
  destruct b0, b1, b2, b3, b4, b5, b6, b7; split; reflexivity.
Qed.

Lemma form_encode_no_amp_eq : forall s,
  no_char "&" (form_encode s) = true /\ no_char "=" (form_encode s) = true.
Proof.
  induction s as [|c s [IH1 IH2]]; [split; reflexivity|].
  cbn [form_encode]. rewrite !no_char_app, IH1, IH2.
  destruct (form_encode_char_no_amp_eq c) as [-> ->]. split; reflexivity.
Qed.

Lemma split_char_concat : forall sep L x,
  no_char sep x = true -> Forall (fun s => no_char sep s = true) L ->
  split_char sep (String.concat (String sep EmptyString) (x :: L)) = x :: L.
Proof.
  intros sep L. induction L as [|y L IH]; intros x Hx HL.
  - apply split_char_free. exact Hx.
  - inversion HL as [|? ? Hy HL']. subst.
    change (String.concat (String sep EmptyString) (x :: y :: L))
      with (x ++ String sep (String.concat (String sep EmptyString) (y :: L)))%string.
    rewrite (split_char_sep_free sep x _ Hx), (IH y Hy HL'). reflexivity.
Qed.

Lemma split_at_eq_app : forall a b,
  no_char "=" a = true -> split_at_eq (a ++ String "=" b) = (a, Some b).
Proof.
  induction a as [|c a IH]; intros b H.
  - reflexivity.
  - unfold no_char in H. cbn [all_chars] in H. apply andb_true_iff in H as [Hc Ha].
    apply negb_true_iff in Hc. cbn [append split_at_eq]. rewrite Hc, (IH b Ha). reflexivity.
Qed.

Lemma encoded_pair_nonempty : forall a b,
  String.eqb (a ++ String "=" b) EmptyString = false.
Proof. intros [|c a] b; reflexivity. Qed.

(** The parser reads back exactly the serialized pairs. *)
Lemma parse_serialize_pairs : forall pairs,
  form_parse (serialize_pairs pairs) = Some pairs.
Proof.
  intro pairs. destruct pairs as [|[n0 v0] pairs]; [reflexivity|].
  unfold form_parse, serialize_pairs.
  set (enc := fun '(name, value) => (form_encode name ++ "=" ++ form_encode value)%string).
  change (map _ ((n0, v0) :: pairs)) with (map enc ((n0, v0) :: pairs)).
  assert (Henc : forall p, no_char "&" (enc p) = true
                           /\ exists a b, enc p = (a ++ String "=" b)%string
                                          /\ no_char "=" a = true
                                          /\ form_decode a = Some (fst p)
                                          /\ form_decode b = Some (snd p)).
  { intros [n v]. cbn [enc fst snd].
    destruct (form_encode_no_amp_eq n) as [Hn1 Hn2].
    destruct (form_encode_no_amp_eq v) as [Hv1 Hv2].
    split.
    - rewrite !no_char_app, Hn1, Hv1. reflexivity.
    - exists (form_encode n), (form_encode v). split; [reflexivity|].
      split; [exact Hn2|]. split; apply form_decode_encode. }
  cbn [map]. rewrite split_char_concat.
  2: { apply (proj1 (Henc (n0, v0))). }
  2: { apply Forall_forall. intros s Hs. apply in_map_iff in Hs as [p [<- _]].
       apply (proj1 (Henc p)). }
  change (enc (n0, v0) :: map enc pairs) with (map enc ((n0, v0) :: pairs)).
  generalize ((n0, v0) :: pairs) as l. intro l.
  induction l as [|p l IH]; [reflexivity|].
  destruct (Henc p) as [_ [a [b [Ep [Ha [Da Db]]]]]].
  cbn [map filter]. rewrite Ep, encoded_pair_nonempty. cbn [negb map_option].
  rewrite <- Ep. rewrite IH. rewrite Ep, (split_at_eq_app a b Ha), Da, Db.
  destruct p. reflexivity.
Qed.

(** [buildQueryParams] (the axios client module): the query string it
    builds parses back, under the URL Standard's form-urlencoded parser, to
    exactly the pairs the loop appended: [null], [undefined] and [''] values
    dropped, an array giving one pair per item, and every other value as
    [String(value)], in order, whatever characters keys and values
    contain. *)
Theorem buildQueryParams_round_trip : forall params,
  form_parse (buildQueryParams params) = Some (search_params params).
Proof. intro params. apply parse_serialize_pairs. Qed.

Lemma or_default_zero : forall x, or_default (Some x) 0 = x.
Proof. intro x. unfold or_default. destruct (Z.eqb_spec x 0); congruence. Qed.

Lemma opt_param_entry : forall k o,
  Forall (fun kv => fst kv = k /\ snd kv <> EmptyString) (append_entry (k, opt_param o)).
Proof.
  intros k [s|]; [|constructor]. cbn [opt_param append_entry].
  destruct (String.eqb_spec s "") as [E|E]; [constructor|].
  constructor; [split; [reflexivity|exact E]|constructor].
Qed.

Lemma Forall_search_params : forall (P : string * string -> Prop) params,
  (forall e, In e params -> Forall P (append_entry e)) -> Forall P (search_params params).
Proof.
  intros P params H. apply Forall_forall. intros kv Hkv.
  apply in_flat_map in Hkv as [e [He Hkv]].
  exact (proj1 (Forall_forall _ _) (H e He) kv Hkv).
Qed.

(** [ClaimsService.getClaims]: the query it sends always starts with [skip]
    and [limit], a missing or zero [skip] sent as [0] and a missing or zero
    [limit] as [20] (so [limit=0] is never sent), followed only by
    non-empty [status], [search], [date_from], [date_to] or [claim_type]
    values. *)
Theorem getClaims_query : forall filters,
  exists rest,
    form_parse (buildQueryParams (getClaims_params filters))
    = Some (("skip"%string, Number_toString (or_default (cf_skip filters) 0))
            :: ("limit"%string, Number_toString (or_default (cf_limit filters) 20)) :: rest)
    /\ or_default (cf_limit filters) 20 <> 0%Z
    /\ Forall (fun kv => In (fst kv) ["status"; "search"; "date_from"; "date_to"; "claim_type"]%string
                         /\ snd kv <> EmptyString) rest.
Proof.
  intro f. unfold buildQueryParams. rewrite parse_serialize_pairs.
  exists (search_params (skipn 2 (getClaims_params f))).
  split; [reflexivity|]. split.
  - unfold or_default. destruct (cf_limit f) as [l|]; [|discriminate].
    destruct (Z.eqb_spec l 0); [discriminate|assumption].
  - apply Forall_search_params. intros [k p] Hin.
    cbn [skipn getClaims_params] in Hin.
    destruct Hin as [E|[E|[E|[E|[E|[]]]]]]; injection E as <- <-;
      (eapply Forall_impl; [|apply opt_param_entry]);
      intros [k v] [Hk Hv]; cbn [fst snd] in *; subst k;
      (split; [cbn [In]; repeat (first [left; reflexivity | right]) | exact Hv]).
Qed.

(** The Dashboard's "All Statuses" option followed by [getClaims]: the
    request it triggers carries [skip=0] and no [status] parameter. *)
Theorem all_statuses_query : forall filters,
  exists l, form_parse (buildQueryParams (getClaims_params (handleStatusFilter "" filters)))
            = Some l
    /\ In ("skip"%string, "0"%string) l /\ ~ In "status"%string (map fst l).
Proof.
  intro f. unfold buildQueryParams. rewrite parse_serialize_pairs.
  exists (("skip"%string, "0"%string) :: ("limit"%string, Number_toString (or_default (cf_limit f) 20))
          :: search_params (skipn 3 (getClaims_params f))).
  split; [reflexivity|]. split; [left; reflexivity|].
  assert (HF : Forall (fun kv => fst kv <> "status"%string)
                 (search_params (skipn 3 (getClaims_params f)))).
  { apply Forall_search_params. intros [k p] Hin.
    cbn [skipn getClaims_params] in Hin.
    destruct Hin as [E|[E|[E|[E|[]]]]]; injection E as <- <-;
      (eapply Forall_impl; [|apply opt_param_entry]);
      intros [k v] [Hk _]; cbn [fst] in *; subst k; discriminate. }
  intros [H|[H|H]]; try discriminate.
  apply in_map_iff in H as [kv [Hk Hin]].
  exact (proj1 (Forall_forall _ _) HF kv Hin Hk).
Qed.

(** ** Dashboard pagination *)

Lemma currentPage_at : forall f limit k,
  cf_limit f = Some limit -> (0 < limit)%Z -> cf_skip f = Some (k * limit)%Z -> (0 <= k)%Z ->
  currentPage f = (k + 1)%Z.
Proof.
  intros f limit k Hl Hpos Hs Hk. unfold currentPage. rewrite Hl, Hs, or_default_zero.
  unfold or_default. destruct (Z.eqb_spec limit 0) as [E|_]; [lia|].
  rewrite Z.div_mul by lia. reflexivity.
Qed.

(** [handleSearch] and [handleStatusFilter] (Dashboard): changing the search
    text or the status filter always brings the list back to its first
    page, whatever page was shown. *)
Theorem filter_change_resets_page : forall s f,
  currentPage (handleSearch s f) = 1%Z /\ currentPage (handleStatusFilter s f) = 1%Z.
Proof.
  intros s f. unfold currentPage. cbn [handleSearch handleStatusFilter cf_skip cf_limit].
  rewrite or_default_zero, Zdiv_0_l. split; reflexivity.
Qed.

(** The numbered page buttons (Dashboard): with a positive page size,
    clicking the button of page [pageNumber] shows page [pageNumber]. *)
Theorem page_button_lands_on_page : forall filters limit pageNumber,
  cf_limit filters = Some limit -> (0 < limit)%Z -> (1 <= pageNumber)%Z ->
  currentPage (click_page pageNumber limit filters) = pageNumber.
Proof.
  intros f limit p Hl Hpos Hp.
  rewrite (currentPage_at (click_page p limit f) limit (p - 1)); [lia|exact Hl|exact Hpos| |lia].
  reflexivity.
Qed.

Lemma page_button_lands_on_page_witness :
  cf_limit dashboard_initial_filters = Some 20%Z /\ (0 < 20)%Z /\ (1 <= 3)%Z
  /\ currentPage (click_page 3 20 dashboard_initial_filters) = 3%Z.
Proof.
  assert (H1 : cf_limit dashboard_initial_filters = Some 20%Z) by reflexivity.
  assert (H2 : (0 < 20)%Z) by lia. assert (H3 : (1 <= 3)%Z) by lia.
  split; [exact H1|]. split; [exact H2|]. split; [exact H3|].
  exact (page_button_lands_on_page dashboard_initial_filters 20 3 H1 H2 H3).
Defined.

(** The Previous and Next buttons (Dashboard): from page [p], reached with
    skip [(p - 1) * limit], Previous is disabled on page 1 and otherwise
    shows page [p - 1]; Next is disabled when the response has no more
    claims and otherwise shows page [p + 1]. *)
Theorem previous_next_pages : forall filters limit p has_more,
  cf_limit filters = Some limit -> cf_skip filters = Some ((p - 1) * limit)%Z ->
  (0 < limit)%Z -> (1 <= p)%Z ->
  currentPage filters = p
  /\ (p = 1%Z -> click_previous limit filters = None)
  /\ ((1 < p)%Z -> exists f', click_previous limit filters = Some f'
                              /\ currentPage f' = (p - 1)%Z)
  /\ (has_more = false -> click_next limit has_more filters = None)
  /\ (has_more = true -> exists f', click_next limit has_more filters = Some f'
                                    /\ currentPage f' = (p + 1)%Z).
Proof.
  intros f limit p has_more Hl Hs Hpos Hp.
  split; [rewrite (currentPage_at f limit (p - 1)); [lia|exact Hl|exact Hpos|exact Hs|lia]|].
  split; [intros ->; unfold click_previous; rewrite Hs; reflexivity|].
  split.
  - intro Hp2. unfold click_previous. rewrite Hs.
    replace ((p - 1) * limit)%Z with (Z.pos (Z.to_pos ((p - 1) * limit))) by nia.
    eexists. split; [reflexivity|].
    rewrite (currentPage_at _ limit (p - 2)); [lia|exact Hl|exact Hpos| |lia].
    cbn [handlePageChange cf_skip]. rewrite or_default_zero.
    f_equal. nia.
  - split; [intros ->; reflexivity|].
    intros ->. eexists. split; [reflexivity|].
    rewrite (currentPage_at _ limit p); [lia|exact Hl|exact Hpos| |lia].
    cbn [handlePageChange cf_skip]. rewrite Hs, or_default_zero.
    f_equal. lia.
Qed.

Lemma previous_next_pages_witness :
  cf_limit (click_page 3 20 dashboard_initial_filters) = Some 20%Z
  /\ cf_skip (click_page 3 20 dashboard_initial_filters) = Some ((3 - 1) * 20)%Z
  /\ (0 < 20)%Z /\ (1 <= 3)%Z
  /\ currentPage (click_page 3 20 dashboard_initial_filters) = 3%Z
  /\ (3%Z = 1%Z -> click_previous 20 (click_page 3 20 dashboard_initial_filters) = None)
  /\ ((1 < 3)%Z -> exists f', click_previous 20 (click_page 3 20 dashboard_initial_filters)
                               = Some f' /\ currentPage f' = (3 - 1)%Z)
  /\ (true = false -> click_next 20 true (click_page 3 20 dashboard_initial_filters) = None)
  /\ (true = true -> exists f', click_next 20 true (click_page 3 20 dashboard_initial_filters)
                                 = Some f' /\ currentPage f' = (3 + 1)%Z).
Proof.
  assert (H1 : cf_limit (click_page 3 20 dashboard_initial_filters) = Some 20%Z) by reflexivity.
  assert (H2 : cf_skip (click_page 3 20 dashboard_initial_filters) = Some ((3 - 1) * 20)%Z)
    by reflexivity.
  assert (H3 : (0 < 20)%Z) by lia. assert (H4 : (1 <= 3)%Z) by lia.
  split; [exact H1|]. split; [exact H2|]. split; [exact H3|]. split; [exact H4|].
  exact (previous_next_pages (click_page 3 20 dashboard_initial_filters) 20 3 true H1 H2 H3 H4).
Defined.

Lemma filter_length_le' : forall {A : Type} (p : A -> bool) l,
  (List.length (filter p l) <= List.length l)%nat.
Proof.
  intros A p l. induction l as [|x l IH]; [reflexivity|].
  cbn [filter List.length]. destruct (p x); cbn [List.length]; lia.
Qed.

(** The numbered page buttons (Dashboard): at most five of them, each a
    page between 1 and [totalPages]. *)
Theorem page_numbers_bounds : forall currentPage totalPages,
  (List.length (page_numbers currentPage totalPages) <= 5)%nat
  /\ Forall (fun n => 1 <= n <= totalPages)%Z (page_numbers currentPage totalPages).
Proof.
  intros cur tot. unfold page_numbers. split.
  - eapply Nat.le_trans; [apply filter_length_le'|].
    rewrite length_map, length_seq. lia.
  - apply Forall_forall. intros n Hn. apply filter_In in Hn as [Hn Hle].
    apply Z.leb_le in Hle. apply in_map_iff in Hn as [i [<- _]]. lia.
Qed.

(** The numbered page buttons (Dashboard): the current page always has its
    own button when it lies between 1 and [totalPages]. *)
Theorem page_numbers_show_current : forall currentPage totalPages,
  (1 <= currentPage <= totalPages)%Z -> In currentPage (page_numbers currentPage totalPages).
Proof.
  intros cur tot H. unfold page_numbers. apply filter_In. split; [|apply Z.leb_le; lia].
  apply in_map_iff. exists (Z.to_nat (cur - Z.max 1 (cur - 2))). split; [lia|].
  apply in_seq. split; [lia|]. cbn [Nat.add].
  apply Z2Nat.inj_lt; lia.
Qed.

Lemma page_numbers_show_current_witness :
  (1 <= 10 <= 10)%Z /\ In 10%Z (page_numbers 10 10).
Proof.
  assert (H : (1 <= 10 <= 10)%Z) by lia. split; [exact H|].
  exact (page_numbers_show_current 10 10 H).
Defined.

(** ** Query keys *)

(** [queryKeys] (the claims hooks): invalidating [queryKeys.lists()], as the
    create, update and delete mutations do, reaches every list query,
    whatever its filters, and no detail, statistics or OCR query; a detail
    key only reaches the detail of its own claim id. *)
Theorem list_invalidation_scope : forall filters id id',
  key_matches queryKeys_lists (queryKeys_list filters)
  /\ ~ key_matches queryKeys_lists (queryKeys_detail id)
  /\ ~ key_matches queryKeys_lists queryKeys_stats
  /\ ~ key_matches queryKeys_lists (queryKeys_ocr_status id)
  /\ ~ key_matches queryKeys_lists (queryKeys_ocr_documents id)
  /\ (key_matches (queryKeys_detail id) (queryKeys_detail id') -> id' = id).
Proof.
  intros f id id'. unfold key_matches.
  split; [exists [KFilters f]; reflexivity|].
  split; [intros [rest H]; discriminate H|].
  split; [intros [rest H]; discriminate H|].
  split; [intros [rest H]; discriminate H|].
  split; [intros [rest H]; discriminate H|].
  intros [rest H]. cbn in H. injection H as E _. exact E.
Qed.

(** ** [groupBy] *)

Lemma groupBy_fold_none : forall {T : Type} (key_of : T -> string) l,
  fold_left (groupBy_step key_of) l None = None.
Proof. intros T key_of l. induction l as [|x l IH]; [reflexivity|]. exact IH. Qed.

Lemma assoc_set_same : forall {A : Type} k (v w : A) l,
  assoc_lookup k l = Some w -> assoc_lookup k (assoc_set k v l) = Some v.
Proof.
  intros A k v w l. induction l as [|[k' v'] l IH]; [discriminate|].
  cbn [assoc_lookup assoc_set]. destruct (String.eqb k k') eqn:E.
  - intros _. cbn [assoc_lookup]. rewrite E. reflexivity.
  - intro H. cbn [assoc_lookup]. rewrite E. exact (IH H).
Qed.

Lemma assoc_set_other : forall {A : Type} k k' (v : A) l,
  k' <> k -> assoc_lookup k' (assoc_set k v l) = assoc_lookup k' l.
Proof.
  intros A k k' v l Hne. induction l as [|[k0 v0] l IH]; [reflexivity|].
  cbn [assoc_set]. destruct (String.eqb_spec k k0) as [<-|E].
  - cbn [assoc_lookup]. destruct (String.eqb_spec k' k); [congruence|reflexivity].
  - cbn [assoc_lookup]. rewrite IH. reflexivity.
Qed.

Lemma assoc_lookup_snoc : forall {A : Type} k k0 (v : A) l,
  assoc_lookup k (l ++ [(k0, v)])
  = match assoc_lookup k l with
    | Some w => Some w
    | None => if String.eqb k k0 then Some v else None
    end.
Proof.
  intros A k k0 v l. induction l as [|[k' v'] l IH]; [reflexivity|].
  cbn [app assoc_lookup]. destruct (String.eqb k k'); [reflexivity|exact IH].
Qed.

Lemma not_prototype_key : forall k,
  ~ In k object_prototype_keys -> existsb (String.eqb k) object_prototype_keys = false.
Proof.
  intros k H. apply Bool.not_true_iff_false. intro E.
  apply existsb_exists in E as [k' [Hin Ek]]. apply String.eqb_eq in Ek. subst k'.
  exact (H Hin).
Qed.

Section GroupByProofs.

Context {T : Type}.
Variable key_of : T -> string.

Lemma groupBy_step_grouped : forall p g x,
  (forall k, assoc_lookup k g
             = if existsb (fun item => String.eqb (key_of item) k) p
               then Some (filter (fun item => String.eqb (key_of item) k) p) else None) ->
  ~ In (key_of x) object_prototype_keys ->
  exists g', groupBy_step key_of (Some g) x = Some g'
    /\ forall k, assoc_lookup k g'
                 = if existsb (fun item => String.eqb (key_of item) k) (p ++ [x])
                   then Some (filter (fun item => String.eqb (key_of item) k) (p ++ [x]))
                   else None.
Proof.
  intros p g x Hinv Hx. unfold groupBy_step. cbv zeta.
  pose proof (Hinv (key_of x)) as Hk.
  destruct (existsb (fun item => String.eqb (key_of item) (key_of x)) p) eqn:Ep.
  - rewrite Hk. eexists. split; [reflexivity|]. intro k.
    rewrite existsb_app, filter_app. cbn [existsb filter].
    destruct (String.eqb_spec (key_of x) k) as [<-|Hne].
    + rewrite Ep. cbn [orb]. apply (assoc_set_same _ _ _ _ Hk).
    + rewrite assoc_set_other by congruence. rewrite Hinv, orb_false_r, app_nil_r.
      reflexivity.
  - rewrite Hk, (not_prototype_key _ Hx). eexists. split; [reflexivity|]. intro k.
    rewrite assoc_lookup_snoc, existsb_app, filter_app. cbn [existsb filter].
    rewrite Hinv.
    destruct (String.eqb_spec (key_of x) k) as [<-|Hne].
    + rewrite Ep, String.eqb_refl. cbn [orb].
      assert (Hf : filter (fun item => String.eqb (key_of item) (key_of x)) p = []).
      { clear -Ep. induction p as [|y p IH]; [reflexivity|].
        cbn [existsb] in Ep. apply orb_false_iff in Ep as [E1 E2].
        cbn [filter]. rewrite E1. exact (IH E2). }
      rewrite Hf. reflexivity.
    + destruct (existsb (fun item => String.eqb (key_of item) k) p); cbn [orb];
        [rewrite app_nil_r; reflexivity|].
      destruct (String.eqb_spec k (key_of x)); [congruence|reflexivity].
Qed.

Lemma groupBy_fold_grouped : forall l p g,
  (forall k, assoc_lookup k g
             = if existsb (fun item => String.eqb (key_of item) k) p
               then Some (filter (fun item => String.eqb (key_of item) k) p) else None) ->
  (forall item, In item l -> ~ In (key_of item) object_prototype_keys) ->
  exists g', fold_left (groupBy_step key_of) l (Some g) = Some g'
    /\ forall k, assoc_lookup k g'
                 = if existsb (fun item => String.eqb (key_of item) k) (p ++ l)
                   then Some (filter (fun item => String.eqb (key_of item) k) (p ++ l))
                   else None.
Proof.
  induction l as [|x l IH]; intros p g Hinv Hl.
  - exists g. split; [reflexivity|]. rewrite app_nil_r. exact Hinv.
  - destruct (groupBy_step_grouped p g x Hinv (Hl x (or_introl eq_refl))) as [g1 [E1 H1]].
    cbn [fold_left]. rewrite E1.
    destruct (IH (p ++ [x]) g1 H1 (fun item Hi => Hl item (or_intror Hi))) as [g' [E' H']].
    exists g'. split; [exact E'|]. rewrite <- app_assoc in H'. exact H'.
Qed.

Lemma groupBy_step_own_keys : forall g x g',
  (forall k, In k object_prototype_keys -> assoc_lookup k g = None) ->
  groupBy_step key_of (Some g) x = Some g' ->
  forall k, In k object_prototype_keys -> assoc_lookup k g' = None.
Proof.
  intros g x g' Hg Hs k Hk. unfold groupBy_step in Hs. cbv zeta in Hs.
  destruct (assoc_lookup (key_of x) g) as [arr|] eqn:Ex.
  - injection Hs as <-. rewrite assoc_set_other; [exact (Hg k Hk)|].
    intros ->. rewrite (Hg _ Hk) in Ex. discriminate.
  - destruct (existsb (String.eqb (key_of x)) object_prototype_keys) eqn:Ep; [discriminate|].
    injection Hs as <-. rewrite assoc_lookup_snoc, (Hg k Hk).
    destruct (String.eqb_spec k (key_of x)) as [->|_]; [|reflexivity].
    exfalso. apply Bool.not_true_iff_false in Ep. apply Ep.
    apply existsb_exists. exists (key_of x). split; [exact Hk|apply String.eqb_refl].
Qed.

Lemma groupBy_fold_throws : forall l g,
  (forall k, In k object_prototype_keys -> assoc_lookup k g = None) ->
  (exists item, In item l /\ In (key_of item) object_prototype_keys) ->
  fold_left (groupBy_step key_of) l (Some g) = None.
Proof.
  induction l as [|x l IH]; intros g Hg [item [Hin Hk]]; [destruct Hin|].
  cbn [fold_left]. destruct Hin as [->|Hin].
  - unfold groupBy_step at 2. cbv zeta. rewrite (Hg _ Hk).
    replace (existsb (String.eqb (key_of item)) object_prototype_keys) with true.
    + apply groupBy_fold_none.
    + symmetry. apply existsb_exists. exists (key_of item).
      split; [exact Hk|apply String.eqb_refl].
  - destruct (groupBy_step key_of (Some g) x) as [g1|] eqn:E1; [|apply groupBy_fold_none].
    apply IH; [|exists item; split; assumption].
    exact (groupBy_step_own_keys g x g1 Hg E1).
Qed.

End GroupByProofs.

(** [groupBy] (utils): when no item's key is the name of a property every
    object inherits, the groups hold, for each key, exactly the items with
    that key, in their original order, and no other key has a group. *)
Theorem groupBy_groups : forall {T : Type} (key_of : T -> string) (array : list T),
  (forall item, In item array -> ~ In (key_of item) object_prototype_keys) ->
  exists groups, groupBy key_of array = Some groups
    /\ forall k, assoc_lookup k groups
                 = if existsb (fun item => String.eqb (key_of item) k) array
                   then Some (filter (fun item => String.eqb (key_of item) k) array)
                   else None.
Proof.
  intros T key_of array H. unfold groupBy.
  exact (groupBy_fold_grouped key_of array [] [] (fun k => eq_refl) H).
Qed.

Lemma groupBy_groups_witness :
  (forall item, In item ["a"; "b"; "a"]%string -> ~ In (id item) object_prototype_keys)
  /\ exists groups, groupBy id ["a"; "b"; "a"]%string = Some groups
       /\ forall k, assoc_lookup k groups
                    = if existsb (fun item => String.eqb (id item) k) ["a"; "b"; "a"]%string
                      then Some (filter (fun item => String.eqb (id item) k) ["a"; "b"; "a"]%string)
                      else None.
Proof.
  assert (H : forall item, In item ["a"; "b"; "a"]%string -> ~ In (id item) object_prototype_keys).
  { intros item Hi Hk. cbn [id object_prototype_keys In] in Hk.
    destruct Hi as [<-|[<-|[<-|[]]]];
      repeat (destruct Hk as [Hk|Hk]; [discriminate Hk|]); exact Hk. }
  split; [exact H|]. exact (groupBy_groups id _ H).
Defined.

(** [groupBy] (utils): an item whose key names a property every object
    inherits, such as ["toString"] or ["constructor"], makes the call throw
    a [TypeError], whatever the other items. *)
Theorem groupBy_inherited_key_throws : forall {T : Type} (key_of : T -> string) array item,
  In item array -> In (key_of item) object_prototype_keys -> groupBy key_of array = None.
Proof.
  intros T key_of array item Hin Hk. unfold groupBy.
  apply groupBy_fold_throws; [intros k _; reflexivity|exists item; split; assumption].
Qed.

Lemma groupBy_inherited_key_throws_witness :
  In "toString"%string ["a"; "toString"]%string
  /\ In (id "toString"%string) object_prototype_keys
  /\ groupBy id ["a"; "toString"]%string = None.
Proof.
  assert (H1 : In "toString"%string ["a"; "toString"]%string) by (right; left; reflexivity).
  assert (H2 : In (id "toString"%string) object_prototype_keys)
    by (cbv [id object_prototype_keys]; do 8 right; left; reflexivity).
  split; [exact H1|]. split; [exact H2|].
  exact (groupBy_inherited_key_throws id _ _ H1 H2).
Defined.

(** ** [retryRequest] on a late success *)

Section RetrySuccess.

Context {T : Type}.
Variable requestFn : nat -> Outcome T.
Variable maxRetries : nat.
Variable delay : Z.

Lemma retry_loop_late_success : forall j fuel attempt lastError v,
  (j < fuel)%nat ->
  (forall a, (attempt <= a < attempt + j)%nat ->
             exists e, requestFn a = Rejected e /\ no_retry e = false) ->
  requestFn (attempt + j) = Resolved v ->
  retry_loop requestFn maxRetries delay fuel attempt lastError
  = (flat_map (attempt_steps maxRetries delay) (seq attempt j) ++ [Call (attempt + j)],
     Returned v).
Proof.
  induction j as [|j IH]; intros fuel attempt lastError v Hj Hfail Hok.
  - destruct fuel as [|fuel]; [lia|]. rewrite Nat.add_0_r in Hok |- *.
    cbn [retry_loop]. rewrite Hok. reflexivity.
  - destruct fuel as [|fuel]; [lia|].
    destruct (Hfail attempt ltac:(lia)) as [e [He Hn]].
    cbn [retry_loop]. rewrite He, Hn.
    rewrite (IH fuel (S attempt) (Some e) v ltac:(lia)).
    + cbn [seq flat_map]. unfold attempt_steps.
      replace (S attempt + j)%nat with (attempt + S j)%nat by lia.
      rewrite <- app_assoc. reflexivity.
    + intros a Ha. apply Hfail. lia.
    + replace (S attempt + j)%nat with (attempt + S j)%nat by lia. exact Hok.
Qed.

End RetrySuccess.

(** [retryRequest] (the axios client module): when the first [k] attempts,
    [k] below [maxRetries], fail with errors that may be retried and the
    next one succeeds, the request is called [k + 1] times, with the backoff
    wait after each failure, and the value of the successful call is
    returned. *)
Theorem retry_success_after_failures : forall {T : Type} (requestFn : nat -> Outcome T)
    maxRetries delay k v,
  (k < maxRetries)%nat ->
  (forall a, (1 <= a <= k)%nat -> exists e, requestFn a = Rejected e /\ no_retry e = false) ->
  requestFn (S k) = Resolved v ->
  retryRequest requestFn maxRetries delay
  = (flat_map (attempt_steps maxRetries delay) (seq 1 k) ++ [Call (S k)], Returned v).
Proof.
  intros T f maxRetries delay k v Hk Hfail Hok. unfold retryRequest.
  apply (retry_loop_late_success f maxRetries delay k maxRetries 1 None v Hk).
  - intros a Ha. apply Hfail. lia.
  - exact Hok.
Qed.

Lemma retry_success_after_failures_witness :
  (1 < 3)%nat
  /\ (forall a, (1 <= a <= 1)%nat ->
        exists e, (fun a => if (a =? 1)%nat then Rejected server_error else Resolved 7%nat) a
                  = Rejected e /\ no_retry e = false)
  /\ (fun a => if (a =? 1)%nat then Rejected server_error else Resolved 7%nat) 2%nat = Resolved 7%nat
  /\ retryRequest (fun a => if (a =? 1)%nat then Rejected server_error else Resolved 7%nat) 3 1000
     = (flat_map (attempt_steps 3 1000) (seq 1 1) ++ [Call 2], Returned 7%nat).
Proof.
  assert (H1 : (1 < 3)%nat) by lia.
  assert (H2 : forall a, (1 <= a <= 1)%nat ->
        exists e, (fun a => if (a =? 1)%nat then Rejected server_error else Resolved 7%nat) a
                  = Rejected e /\ no_retry e = false).
  { intros a Ha. replace a with 1%nat by lia. exists server_error. split; reflexivity. }
  assert (H3 : (fun a => if (a =? 1)%nat then Rejected server_error else Resolved 7%nat) 2%nat
               = Resolved 7%nat) by reflexivity.
  split; [exact H1|]. split; [exact H2|]. split; [exact H3|].
  exact (retry_success_after_failures _ 3 1000 1 7%nat H1 H2 H3).
Defined.

(** ** The forms of the create and edit pages *)

Lemma policy_number_check_page : forall s,
  policy_number_check s = true -> page_policy_number_check s = true.
Proof.
  intros s H. unfold policy_number_check, page_policy_number_check in *.
  apply andb_true_iff in H as [H _]. exact H.
Qed.

Lemma patient_name_check_page : forall s,
  patient_name_check s = true -> page_patient_name_check s = true.
Proof.
  intros s H. unfold patient_name_check, page_patient_name_check in *.
  apply andb_true_iff in H as [H _]. exact H.
Qed.

Lemma date_of_service_check_page : forall parse_date now s,
  date_of_service_check parse_date now s = true -> page_date_check parse_date s = true.
Proof.
  intros pd now s H. unfold date_of_service_check, page_date_check in *.
  apply andb_true_iff in H as [H _]. exact H.
Qed.

Lemma claim_amount_check_page : forall q,
  claim_amount_check q = true -> page_claim_amount_check q = true.
Proof.
  intros q H. unfold claim_amount_check, page_claim_amount_check in *.
  apply andb_true_iff in H as [H _]. exact H.
Qed.

Lemma opt_check_weaken : forall {A : Type} (f g : A -> bool) o,
  (forall a, f a = true -> g a = true) -> opt_check f o = true -> opt_check g o = true.
Proof. intros A f g [a|] H; [apply H|reflexivity]. Qed.

(** [claimSchema] of the create page: every claim input that the shared
    [claimValidationSchema] accepts (for any clock) is also accepted by the
    form, whose checks are the shared ones without the patient name
    pattern, the 50-character policy number limit, the future-date check
    and the two-decimal check. *)
Theorem createClaim_form_accepts_valid : forall parse_date now i,
  claimValidationSchema parse_date now i = true -> createClaim_claimSchema parse_date i = true.
Proof.
  intros pd now i H. unfold claimValidationSchema in H. unfold createClaim_claimSchema.
  repeat rewrite andb_true_iff in H.
  destruct H as [[[[[[[[Hc Hp] Hn] Hd] Ha] Ht] _] _] _].
  rewrite Hc, (policy_number_check_page _ Hp), (patient_name_check_page _ Hn),
    (date_of_service_check_page _ _ _ Hd), (claim_amount_check_page _ Ha), Ht.
  reflexivity.
Qed.

Lemma createClaim_form_accepts_valid_witness :
  claimValidationSchema parse_epoch 0 (sample_input (25050 # 100)) = true
  /\ createClaim_claimSchema parse_epoch (sample_input (25050 # 100)) = true.
Proof.
  assert (H : claimValidationSchema parse_epoch 0 (sample_input (25050 # 100)) = true)
    by (vm_compute; reflexivity).
  split; [exact H|]. exact (createClaim_form_accepts_valid parse_epoch 0 _ H).
Defined.

(** [editClaimSchema] of the edit page: every update that the shared
    update schema accepts also passes the edit form's checks. *)
Theorem editClaim_form_accepts_valid_update : forall parse_date now p,
  updateClaimSchema parse_date now p = true ->
  editClaimSchema parse_date (payload_to_update p) = true.
Proof.
  intros pd now p H. unfold updateClaimSchema in H. unfold editClaimSchema.
  repeat rewrite andb_true_iff in H.
  destruct H as [[[[[[[[[Hc Hp] Hn] Hd] Ha] Ht] _] _] _] _].
  cbn [payload_to_update cu_claim_number cu_policy_number cu_patient_name
       cu_date_of_service cu_claim_amount cu_claim_type].
  rewrite Hc, (opt_check_weaken _ _ _ policy_number_check_page Hp),
    (opt_check_weaken _ _ _ patient_name_check_page Hn),
    (opt_check_weaken _ _ _ (date_of_service_check_page pd now) Hd),
    (opt_check_weaken _ _ _ claim_amount_check_page Ha), Ht.
  reflexivity.
Qed.

Lemma editClaim_form_accepts_valid_update_witness :
  updateClaimSchema parse_epoch 0 (claim_number_payload (c_id sample_claim) "CLM654321") = true
  /\ editClaimSchema parse_epoch
       (payload_to_update (claim_number_payload (c_id sample_claim) "CLM654321")) = true.
Proof.
  assert (H : updateClaimSchema parse_epoch 0
                (claim_number_payload (c_id sample_claim) "CLM654321") = true)
    by (vm_compute; reflexivity).
  split; [exact H|]. exact (editClaim_form_accepts_valid_update parse_epoch 0 _ H).
Defined.
